(** * useful-scripts: the YouTube download scripts

    A shallow embedding of [batch_download_youtube.py] and
    [download_youtube_yt_dlp.py], and the properties of their retry loop,
    URL reader, batch orchestrator and top-level exit behaviour.

    Python values are modelled as follows: [int] is [Z], [str] is [string]
    (its UTF-8 bytes), a list is a [list], the dict returned by the
    extractor is a [gmap string string], and [None] is the [None] of
    [option].  Everything the scripts do through a library (the console,
    the file system, the extractor, the thread pool) is an event of a
    trace or an answer read from an environment record. *)

From Stdlib Require Import ZArith List Ascii String Permutation.
From stdpp Require Import base option list gmap strings pretty.

Local Open Scope string_scope.
Local Open Scope Z_scope.
Local Open Scope list_scope.

(** ** Exceptions *)

(** The part of Python's exception hierarchy the scripts depend on.
    [KeyboardInterrupt] and [SystemExit] derive from [BaseException] only;
    [DownloadError] (of yt_dlp) and every [OtherException] derive from
    [Exception]. *)
Inductive pyexn :=
| KeyboardInterrupt
| SystemExit (code : Z)
| DownloadError (msg : string)
| OtherException (msg : string).

(** [isinstance(e, Exception)] *)
Definition is_Exception (e : pyexn) : bool :=
  match e with
  | KeyboardInterrupt | SystemExit _ => false
  | DownloadError _ | OtherException _ => true
  end.

(** [str(e)] *)
Definition str_exn (e : pyexn) : string :=
  match e with
  | KeyboardInterrupt => ""
  | SystemExit code => pretty code
  | DownloadError msg | OtherException msg => msg
  end.

(** ** Traces and the execution monad *)

(** The options bundle the scripts hand to [YoutubeDL]; the fields with a
    fixed value in the source are left out. *)
Record ydl_opts := {
  opt_format : string;
  opt_outtmpl : string;
  opt_proxy : option string
}.

Inductive event :=
| EPrint (line : string)
| EInput (prompt : string)
| EMakedirs (path : string)
| EExtract (url : string) (opts : ydl_opts) (download : bool)
| EListFormats (url : string) (proxy : option string)
| ESleep (seconds : Z)
| EOpen (path : string)
| EWriteCsv (path : string) (rows : list (list string)).

(** How a computation ends: with a value, with an exception that
    propagates out of it, or not at all. *)
Inductive outcome (A : Type) :=
| Return (a : A)
| Raise (e : pyexn)
| Diverge.
Arguments Return {A} a.
Arguments Raise {A} e.
Arguments Diverge {A}.

(** A computation yields the events it performed and how it ended. *)
Definition Py (A : Type) : Type := list event * outcome A.

Definition trace_of {A} (m : Py A) : list event := fst m.
Definition result_of {A} (m : Py A) : outcome A := snd m.

#[global] Instance Py_ret : MRet Py := λ A a, ([], Return a).
#[global] Instance Py_bind : MBind Py := λ A B f m,
  match snd m with
  | Return a => (fst m ++ fst (f a), snd (f a))
  | Raise e => (fst m, Raise e)
  | Diverge => (fst m, Diverge)
  end.

Definition emit (ev : event) : Py unit := ([ev], Return tt).
Definition raise {A} (e : pyexn) : Py A := ([], Raise e).
Definition diverge {A} : Py A := ([], Diverge).
Definition print (line : string) : Py unit := emit (EPrint line).

(** [try: body except ...: handler]; [handler e = None] when no clause of
    the statement matches [e], which then propagates. *)
Definition try_except {A} (body : Py A) (handler : pyexn → option (Py A)) : Py A :=
  match snd body with
  | Raise e =>
      match handler e with
      | Some h => (fst body ++ fst h, snd h)
      | None => body
      end
  | _ => body
  end.

(** The clause [except Exception as e]. *)
Definition except_Exception {A} (h : pyexn → Py A) (e : pyexn) : option (Py A) :=
  if is_Exception e then Some (h e) else None.

(** A [for] loop whose body neither breaks nor returns. *)
Fixpoint for_each {A} (body : A → Py unit) (l : list A) : Py unit :=
  match l with
  | [] => mret tt
  | x :: l' => body x;; for_each body l'
  end.

(** Truthiness of a [str] and of an optional [str]. *)
Definition truthy (s : string) : bool :=
  match s with EmptyString => false | _ => true end.
Definition truthy_opt (s : option string) : bool :=
  match s with Some s => truthy s | None => false end.

(** ** String and path helpers *)

(** [os.path.join(a, b)] of posixpath, for a relative [b]. *)
Definition path_join (a b : string) : string :=
  if truthy a then
    if String.eqb (substring (String.length a - 1) 1 a) "/" then a +:+ b
    else a +:+ "/" +:+ b
  else b.

(** [str.strip()]: the characters Python strips that fit in one byte of
    UTF-8 (tab, LF, VT, FF, CR, FS, GS, RS, US and space). *)
Definition is_space (c : ascii) : bool :=
  let n := nat_of_ascii c in
  ((9 <=? n) && (n <=? 13) || (28 <=? n) && (n <=? 32))%nat.

Fixpoint lstrip (s : string) : string :=
  match s with
  | String c s' => if is_space c then lstrip s' else s
  | EmptyString => EmptyString
  end.

Fixpoint rstrip (s : string) : string :=
  match s with
  | String c s' =>
      match rstrip s' with
      | EmptyString => if is_space c then EmptyString else String c EmptyString
      | r => String c r
      end
  | EmptyString => EmptyString
  end.

Definition strip (s : string) : string := rstrip (lstrip s).

(** [s.startswith(p)] *)
Definition startswith (p s : string) : bool := String.prefix p s.

(** [str.lower()] on the letters A-Z; the other bytes are kept. *)
Definition lower_char (c : ascii) : ascii :=
  let n := nat_of_ascii c in
  if ((65 <=? n) && (n <=? 90))%nat then ascii_of_nat (n + 32) else c.

Fixpoint lower (s : string) : string :=
  match s with
  | String c s' => String (lower_char c) (lower s')
  | EmptyString => EmptyString
  end.

(** [p.rfind(c)], with [-1] when [c] does not occur; [i] is the index of
    the head of [s] and [best] the last occurrence seen so far. *)
Fixpoint rfind_from (c : ascii) (s : string) (i best : Z) : Z :=
  match s with
  | String a s' => rfind_from c s' (i + 1) (if Ascii.eqb a c then i else best)
  | EmptyString => best
  end.
Definition rfind (c : ascii) (s : string) : Z := rfind_from c s 0 (-1).

(** [p[i:]] and [p[:i]] for [0 <= i]. *)
Definition slice_from (i : Z) (p : string) : string :=
  substring (Z.to_nat i) (String.length p - Z.to_nat i) p.
Definition slice_to (i : Z) (p : string) : string :=
  substring 0 (Z.to_nat i) p.

(** The [while filenameIndex < dotIndex] loop of [genericpath._splitext]:
    is there a character other than the dot at an index in
    [filenameIndex, filenameIndex + n)? *)
Fixpoint has_non_dot (p : string) (filenameIndex : Z) (n : nat) : bool :=
  match n with
  | O => false
  | S n' =>
      if negb (String.eqb (substring (Z.to_nat filenameIndex) 1 p) ".") then true
      else has_non_dot p (filenameIndex + 1) n'
  end.

(** [os.path.splitext(p)] of posixpath. *)
Definition splitext (p : string) : string * string :=
  let sepIndex := rfind "/" p in
  let dotIndex := rfind "." p in
  if (sepIndex <? dotIndex)
     && has_non_dot p (sepIndex + 1) (Z.to_nat (dotIndex - (sepIndex + 1)))
  then (slice_to dotIndex p, slice_from dotIndex p)
  else (p, "").

(** ** Standard input *)

(** What the user does at a prompt: types a line, or presses Ctrl-C.  When
    the list is used up the input is at its end. *)
Inductive stdin_item :=
| Line (s : string)
| CtrlC.

(** A computation that also reads from standard input. *)
Definition IO (A : Type) : Type := list stdin_item → Py (A * list stdin_item).

#[global] Instance IO_ret : MRet IO := λ A a inp, mret (a, inp).
#[global] Instance IO_bind : MBind IO := λ A B f m inp,
  m inp ≫= λ r, f r.1 r.2.

Definition lift {A} (m : Py A) : IO A := λ inp, m ≫= λ a, mret (a, inp).

(** [input(prompt)] *)
Definition input (prompt : string) : IO string := λ inp,
  match inp with
  | Line s :: rest => ([EInput prompt], Return (s, rest))
  | CtrlC :: _ => ([EInput prompt], Raise KeyboardInterrupt)
  | [] => ([EInput prompt], Raise (OtherException "EOF when reading a line"))
  end.

(** How the command line was parsed: the namespace, or the status with
    which [parse_args] leaves the program. *)
Inductive cmdline (A : Type) :=
| Parsed (args : A)
| ParseExit (code : Z).
Arguments Parsed {A} args.
Arguments ParseExit {A} code.

Definition parse_args {A} (cl : cmdline A) : Py A :=
  match cl with
  | Parsed args => mret args
  | ParseExit code => raise (SystemExit code)
  end.

(** The two handlers that close [main] in both scripts. *)
Definition main_handlers (e : pyexn) : option (Py unit) :=
  match e with
  | KeyboardInterrupt =>
      Some (print (String (ascii_of_nat 10) "" +:+ "用户取消操作");;
            raise (SystemExit 0))
  | _ =>
      except_Exception
        (λ e, print (String (ascii_of_nat 10) "" +:+ "发生错误: " +:+ str_exn e);;
              raise (SystemExit 1)) e
  end.

(** The status the interpreter exits with when the script ends as [r]:
    [sys.exit(code)] gives [code], an uncaught Ctrl-C 130, any other
    uncaught exception 1. *)
Definition exit_status {A} (r : outcome A) : option Z :=
  match r with
  | Return _ => Some 0
  | Raise (SystemExit code) => Some code
  | Raise KeyboardInterrupt => Some 130
  | Raise _ => Some 1
  | Diverge => None
  end.

(** [str(proxy)] for the optional proxy. *)
Definition str_opt (s : option string) : string := default "None" s.

(** ** The extractor and the environment of one download *)

(** What one call of [ydl.extract_info] answers: a metadata dict, [None],
    or an exception. *)
Abbreviation info_dict := (gmap string string).
Abbreviation extract_answer := (outcome (option info_dict)).

(** What one run of [download_video] finds around it.  [extract_info n] is
    the answer to the call number [n] (from 0) that this run makes. *)
Record dl_env := {
  path_exists : bool;
  makedirs_error : option pyexn;
  extract_info : nat → extract_answer
}.

(** [if info:] *)
Definition info_truthy (info : option info_dict) : bool :=
  match info with
  | Some d => bool_decide (d ≠ ∅)
  | None => false
  end.

(** [info.get('title', '未知标题')] *)
Definition info_title (d : info_dict) : string :=
  default "未知标题" (d !! "title").

(** An answer after which the loop goes on to the next attempt: a falsy
    [info], or an exception that [except Exception] catches. *)
Definition attempt_fails (a : extract_answer) : bool :=
  match a with
  | Return info => negb (info_truthy info)
  | Raise e => is_Exception e
  | Diverge => false
  end.

(** An answer that ends the loop with success. *)
Definition attempt_succeeds (a : extract_answer) : option info_dict :=
  match a with
  | Return (Some d) => if bool_decide (d ≠ ∅) then Some d else None
  | _ => None
  end.

(** Observations on a trace. *)
Definition is_extract (ev : event) : bool :=
  match ev with EExtract _ _ _ => true | _ => false end.
Definition fetch_calls (t : list event) : nat := length (filter is_extract t).
Definition waits (t : list event) : list Z :=
  omap (λ ev, match ev with ESleep s => Some s | _ => None end) t.
Definition total_wait (t : list event) : Z := foldr Z.add 0 (waits t).

(** ** batch_download_youtube.py *)

Module Batch.

(** The tuple [(success, title, error)]. *)
Definition dl_result : Type := bool * string * string.

Section download_video.
Variable env : dl_env.
Variables (url output_path : string) (proxy : option string) (format : string).
Variable max_retries : Z.
Variables index total : option Z.

Definition make_opts : ydl_opts :=
  {| opt_format := format;
     opt_outtmpl := path_join output_path "%(title)s.%(ext)s";
     opt_proxy := if truthy_opt proxy then proxy else None |}.

Definition prefix : string :=
  match index, total with
  | Some i, Some t => "[" +:+ pretty i +:+ "/" +:+ pretty t +:+ "] "
  | _, _ => ""
  end.

(** Lines 35-37. *)
Definition ensure_output_path : Py unit :=
  if path_exists env then mret tt
  else
    emit (EMakedirs output_path);;
    match makedirs_error env with Some e => raise e | None => mret tt end;;
    print ("创建目录: " +:+ output_path).

Definition call_extract_info (n : nat) : Py (option info_dict) :=
  ([EExtract url make_opts true], extract_info env n).

(** The body of the [try] statement with its two handlers: [inl] is the
    value of the [return] inside it, [inr] the new [error_msg]. *)
Definition attempt (retries : Z) : Py (dl_result + string) :=
  try_except
    (print (prefix +:+ "尝试下载 " +:+ url +:+ "...");;
     info ← call_extract_info (Z.to_nat retries);
     match info with
     | Some d =>
         if bool_decide (d ≠ ∅) then
           let title := info_title d in
           print (prefix +:+ "下载完成: " +:+ title);;
           mret (inl (true, title, ""))
         else
           let error_msg := "无法获取视频信息" in
           print (prefix +:+ error_msg);; mret (inr error_msg)
     | None =>
         let error_msg := "无法获取视频信息" in
         print (prefix +:+ error_msg);; mret (inr error_msg)
     end)
    (λ e,
       match e with
       | DownloadError _ =>
           Some (let error_msg := "下载错误: " +:+ str_exn e in
                 print (prefix +:+ error_msg);; mret (inr error_msg))
       | _ =>
           except_Exception
             (λ e, let error_msg := "发生错误: " +:+ str_exn e in
                   print (prefix +:+ error_msg);; mret (inr error_msg)) e
       end).

(** The [while retries < max_retries] loop and the two lines after it;
    [retries] is also the number of [extract_info] calls made so far. *)
Fixpoint retry_loop (fuel : nat) (retries : Z) (error_msg : string) : Py dl_result :=
  match fuel with
  | O => diverge
  | S fuel =>
      if retries <? max_retries then
        r ← attempt retries;
        match r with
        | inl res => mret res
        | inr error_msg =>
            let retries := retries + 1 in
            (if retries <? max_retries then
               let wait_time := 2 ^ retries in
               print (prefix +:+ "等待 " +:+ pretty wait_time +:+ " 秒后重试... ("
                      +:+ pretty retries +:+ "/" +:+ pretty max_retries +:+ ")");;
               emit (ESleep wait_time)
             else mret tt);;
            retry_loop fuel retries error_msg
        end
      else
        print (prefix +:+ "达到最大重试次数，下载失败");;
        mret (false, "", error_msg)
  end.

Definition download_video : Py dl_result :=
  ensure_output_path;;
  retry_loop (S (Z.to_nat max_retries)) 0 "".

End download_video.

(** *** Reading the URL file *)

(** What iterating over an open file (or over the [csv.reader] on it)
    gives: the items yielded, then the exception that ends the iteration
    early, if any. *)
Record reading (A : Type) := {
  yielded : list A;
  then_raises : option pyexn
}.
Arguments yielded {A} r.
Arguments then_raises {A} r.

(** The file system as the scripts use it: [open_read p] and
    [open_write p] are the exception [open] raises on [p], if any;
    [iter_lines p] are the lines of [p] with their line ends and
    [iter_csv p] the rows the csv reader parses from it. *)
Record file_env := {
  open_read : string → option pyexn;
  iter_lines : string → reading string;
  iter_csv : string → reading (list string);
  open_write : string → option pyexn
}.

(** The body of [for row in reader]: the list [urls] after the row. *)
Definition csv_row_step (urls : list string) (row : list string) : list string :=
  match row with
  | col0 :: _ => if truthy (strip col0) then urls ++ [strip col0] else urls
  | [] => urls
  end.

(** The body of [for line in f]. *)
Definition text_line_step (urls : list string) (line : string) : list string :=
  let line := strip line in
  if truthy line && negb (startswith "#" line) then urls ++ [line] else urls.

(** A [with open(...)] block holding one [for] loop over [rd] that
    updates [urls] in place: the events, the list when the block is left,
    and the exception that left it, if any. *)
Definition read_block {A} (file_path : string) (opened : option pyexn)
    (step : list string → A → list string) (rd : reading A)
    (urls : list string) : list event * list string * option pyexn :=
  match opened with
  | Some e => ([EOpen file_path], urls, Some e)
  | None => ([EOpen file_path], foldl step urls (yielded rd), then_raises rd)
  end.

Definition read_urls_from_file (fs : file_env) (file_path : string) : Py (list string) :=
  let urls := [] in
  let ext := lower (snd (splitext file_path)) in
  let '(evs, urls, exc) :=
    if String.eqb ext ".csv" then
      read_block file_path (open_read fs file_path) csv_row_step
        (iter_csv fs file_path) urls
    else
      read_block file_path (open_read fs file_path) text_line_step
        (iter_lines fs file_path) urls in
  match exc with
  | None => (evs, Return urls)
  | Some e =>
      if is_Exception e then
        (evs, Return tt) ≫= λ _,
        print ("读取文件时出错: " +:+ str_exn e);;
        mret urls
      else (evs, Raise e)
  end.

(** *** Writing the report *)

(** A collected outcome [(url, success, title, error)]. *)
Definition batch_result : Type := string * bool * string * string.

Definition result_row (r : batch_result) : list string :=
  let '(url, success, title, error) := r in
  [url; if success then "成功" else "失败"; title; error].

Definition save_results (fs : file_env) (results : list batch_result)
    (output_path : string) : Py unit :=
  let result_file := path_join output_path "download_results.csv" in
  try_except
    (match open_write fs result_file with
     | Some e => raise e
     | None =>
         emit (EWriteCsv result_file
                 (["URL"; "状态"; "标题"; "错误信息"] :: map result_row results))
     end;;
     print ("下载结果已保存到: " +:+ result_file))
    (except_Exception (λ e, print ("保存结果时出错: " +:+ str_exn e))).

(** *** The batch *)

(** The thread pool seen from the thread that runs [batch_download]:
    [task_env i] is what the task submitted as number [i] (from 0) finds,
    [completion_order] the order in which [as_completed] hands the
    futures back, each future named by the number of its task, and
    [interrupt_at = Some n] a Ctrl-C that reaches the main thread while it
    waits for the next future after handling [n] of them. *)
Record pool_env := {
  task_env : nat → dl_env;
  completion_order : list nat;
  interrupt_at : option nat
}.

Section batch_download.
Variables (pool : pool_env) (fs : file_env).
Variables (urls : list string) (output_path : string).
Variables (proxy : option string) (format : string).
Variables max_workers max_retries : Z.

Definition total : Z := Z.of_nat (length urls).

(** The call that [executor.submit] schedules for [url] at position [i]. *)
Definition task_run (i : nat) (url : string) : Py dl_result :=
  download_video (task_env pool i) url output_path proxy format max_retries
    (Some (Z.of_nat i + 1)) (Some total).

(** The dict [future_to_url]: the future of the task number [i] is the
    key [i], its value the URL at position [i]. *)
Definition future_to_url : gmap nat string := map_seq 0 urls.

(** [future.result()]: the value the task returned, or the exception it
    raised, raised again here.  A future that was never submitted never
    completes. *)
Definition future_result (future : nat) : Py dl_result :=
  match urls !! future with
  | Some url => ([], result_of (task_run future url))
  | None => diverge
  end.

(** The body of [for future in as_completed(future_to_url)]. *)
Definition collect_one (future : nat) (results : list batch_result)
    : Py (list batch_result) :=
  match future_to_url !! future with
  | None => raise (OtherException (pretty future))
  | Some url =>
      try_except
        ('(success, title, error) ← future_result future;
         mret (results ++ [(url, success, title, error)]))
        (except_Exception (λ e,
           print ("处理下载结果时出错: " +:+ str_exn e);;
           mret (results ++ [(url, false, "", str_exn e)])))
  end.

Fixpoint collect (futures : list nat) (handled : nat)
    (results : list batch_result) : Py (list batch_result) :=
  match futures with
  | [] => mret results
  | future :: rest =>
      if bool_decide (interrupt_at pool = Some handled)
      then raise KeyboardInterrupt
      else
        results ← collect_one future results;
        collect rest (S handled) results
  end.

Definition success_count (results : list batch_result) : Z :=
  Z.of_nat (length (filter (λ r : batch_result, r.1.1.2 = true) results)).

Definition batch_download : Py (list batch_result) :=
  let results := [] in
  print ("开始批量下载 " +:+ pretty total +:+ " 个视频...");;
  (if max_workers <=? 0
   then raise (OtherException "max_workers must be greater than 0")
   else mret tt);;
  results ← collect (completion_order pool) 0 results;
  print (String (ascii_of_nat 10) "" +:+ "批量下载完成: 成功 "
         +:+ pretty (success_count results) +:+ "/" +:+ pretty total);;
  save_results fs results output_path;;
  mret results.

End batch_download.

(** *** The program *)

Record args := {
  arg_file : option string;
  arg_urls : option (list string);
  arg_path : string;
  arg_proxy : string;
  arg_format : string;
  arg_no_proxy : bool;
  arg_workers : Z;
  arg_retries : Z
}.

(** [args.file or args.urls] as a condition. *)
Definition given_urls (a : args) : bool :=
  truthy_opt (arg_file a)
  || match arg_urls a with Some (_ :: _) => true | _ => false end.

(** The [while True] loop that reads URLs until a blank line. *)
Fixpoint prompt_urls (urls : list string) (inp : list stdin_item)
    : Py (list string * list stdin_item) :=
  match inp with
  | Line s :: rest =>
      let line := strip s in
      if truthy line
      then ([EInput ""], Return tt) ≫= λ _, prompt_urls (urls ++ [line]) rest
      else ([EInput ""], Return (urls, rest))
  | CtrlC :: _ => ([EInput ""], Raise KeyboardInterrupt)
  | [] => ([EInput ""], Raise (OtherException "EOF when reading a line"))
  end.

Section main.
Variables (pool : pool_env) (fs : file_env).

Definition get_urls (a : args) : IO (list string) :=
  if truthy_opt (arg_file a) then
    let file := default "" (arg_file a) in
    urls ← lift (read_urls_from_file fs file);
    lift (print ("从文件 " +:+ file +:+ " 中读取了 "
                 +:+ pretty (Z.of_nat (length urls)) +:+ " 个URL"));;
    mret urls
  else
    match arg_urls a with
    | Some (u :: us) =>
        lift (print ("从命令行参数中读取了 "
                     +:+ pretty (Z.of_nat (length (u :: us))) +:+ " 个URL"));;
        mret (u :: us)
    | _ =>
        lift (print "请输入YouTube视频链接（每行一个，输入空行结束）:");;
        prompt_urls []
    end.

(** The proxy dialogue of the interactive mode. *)
Definition ask_proxy (proxy : option string) : IO (option string) :=
  answer ← input ("是否使用代理 " +:+ str_opt proxy +:+ "？(y/n): ");
  let use_proxy := String.eqb (strip (lower answer)) "y" in
  if negb use_proxy then mret None
  else
    custom ← input "请输入自定义代理地址（留空使用默认值）: ";
    let custom_proxy := strip custom in
    if truthy custom_proxy then mret (Some custom_proxy) else mret proxy.

Definition main_body (cl : cmdline args) : IO unit :=
  a ← lift (parse_args cl);
  urls ← get_urls a;
  match urls with
  | [] => lift (print "没有提供任何URL，退出程序")
  | _ =>
      download_path ←
        (if String.eqb (arg_path a) "." && negb (given_urls a) then
           p ← input "请输入保存路径（留空为当前目录）: ";
           mret (if truthy (strip p) then strip p else ".")
         else mret (arg_path a));
      let proxy := if arg_no_proxy a then None else Some (arg_proxy a) in
      proxy ←
        (if negb (given_urls a) && negb (arg_no_proxy a)
         then ask_proxy proxy else mret proxy);
      lift (print ("下载URL数量: " +:+ pretty (Z.of_nat (length urls))));;
      lift (print ("保存路径: " +:+ download_path));;
      lift (print ("代理设置: " +:+ str_opt proxy));;
      lift (print ("视频格式: " +:+ arg_format a));;
      lift (print ("并发下载数: " +:+ pretty (arg_workers a)));;
      lift (print ("最大重试次数: " +:+ pretty (arg_retries a)));;
      confirmed ←
        (if negb (given_urls a) then
           c ← input "是否开始下载？(y/n): ";
           mret (String.eqb (strip (lower c)) "y")
         else mret true);
      if negb confirmed then lift (print "用户取消下载")
      else
        lift (batch_download pool fs urls download_path proxy (arg_format a)
                (arg_workers a) (arg_retries a));;
        mret tt
  end.

Definition main (cl : cmdline args) (inp : list stdin_item) : Py unit :=
  try_except (main_body cl inp ≫= λ _, mret tt) main_handlers.

End main.

End Batch.

(** ** download_youtube_yt_dlp.py *)

Module Single.

Section download_video.
Variable env : dl_env.
Variables (url output_path : string) (proxy : option string) (format : string).
Variable max_retries : Z.

Definition make_opts : ydl_opts :=
  {| opt_format := format;
     opt_outtmpl := path_join output_path "%(title)s.%(ext)s";
     opt_proxy := if truthy_opt proxy then proxy else None |}.

Definition ensure_output_path : Py unit :=
  if path_exists env then mret tt
  else
    emit (EMakedirs output_path);;
    match makedirs_error env with Some e => raise e | None => mret tt end;;
    print ("创建目录: " +:+ output_path).

Definition call_extract_info (n : nat) : Py (option info_dict) :=
  ([EExtract url make_opts true], extract_info env n).

(** The [try] statement of the loop: [true] when its body returned
    [True], [false] when the loop goes on. *)
Definition attempt (retries : Z) : Py bool :=
  try_except
    (print ("尝试下载 " +:+ url +:+ "...");;
     info ← call_extract_info (Z.to_nat retries);
     match info with
     | Some d =>
         if bool_decide (d ≠ ∅) then
           print ("下载完成: " +:+ info_title d);; mret true
         else print "无法获取视频信息";; mret false
     | None => print "无法获取视频信息";; mret false
     end)
    (λ e,
       match e with
       | DownloadError _ =>
           Some (print ("下载错误: " +:+ str_exn e);; mret false)
       | _ =>
           except_Exception
             (λ e, print ("发生错误: " +:+ str_exn e);; mret false) e
       end).

Fixpoint retry_loop (fuel : nat) (retries : Z) : Py bool :=
  match fuel with
  | O => diverge
  | S fuel =>
      if retries <? max_retries then
        returned ← attempt retries;
        if returned : bool then mret true
        else
          let retries := retries + 1 in
          (if retries <? max_retries then
             let wait_time := 2 ^ retries in
             print ("等待 " +:+ pretty wait_time +:+ " 秒后重试... ("
                    +:+ pretty retries +:+ "/" +:+ pretty max_retries +:+ ")");;
             emit (ESleep wait_time)
           else mret tt);;
          retry_loop fuel retries
      else
        print "达到最大重试次数，下载失败";;
        mret false
  end.

Definition download_video : Py bool :=
  ensure_output_path;;
  retry_loop (S (Z.to_nat max_retries)) 0.

End download_video.

(** *** Listing the formats *)

(** One entry of [info['formats']], each field as [f.get] finds it;
    [fmt_filesize_mb] is the size already rendered by [:.2f], absent when
    the size is missing or 0. *)
Record fmt_entry := {
  fmt_format_id : option string;
  fmt_ext : option string;
  fmt_resolution : option string;
  fmt_filesize_mb : option string;
  fmt_format_note : option string
}.

(** What [extract_info(url, download=False)] answers: [None] for a falsy
    [info], else [info.get('formats', [])]. *)
Abbreviation formats_answer := (outcome (option (list fmt_entry))).

(** [len(s)] in characters: the bytes of [s] that start a character. *)
Fixpoint py_len (s : string) : nat :=
  match s with
  | String c s' =>
      let n := nat_of_ascii c in
      (if ((128 <=? n) && (n <? 192))%nat then 0 else 1)%nat + py_len s'
  | EmptyString => O
  end.

Fixpoint repeat_char (c : ascii) (n : nat) : string :=
  match n with
  | O => EmptyString
  | S n' => String c (repeat_char c n')
  end.

(** The format spec [:<w]. *)
Definition ljust (w : nat) (s : string) : string :=
  s +:+ repeat_char " " (w - py_len s).

Definition format_row (f : fmt_entry) : string :=
  let format_id := default "N/A" (fmt_format_id f) in
  let ext := default "N/A" (fmt_ext f) in
  let resolution := default "N/A" (fmt_resolution f) in
  let filesize :=
    match fmt_filesize_mb f with
    | Some mb => mb +:+ " MB"
    | None => "未知"
    end in
  let note := default "" (fmt_format_note f) in
  ljust 10 format_id +:+ ljust 10 ext +:+ ljust 15 resolution
    +:+ ljust 15 filesize +:+ ljust 20 note.

Definition rule : string := repeat_char "-" 80.

Definition list_formats (answer : formats_answer) (url : string)
    (proxy : option string) : Py (list fmt_entry) :=
  try_except
    (info ← ([EListFormats url (if truthy_opt proxy then proxy else None)], answer);
     match info with
     | None => print "无法获取视频信息";; mret []
     | Some [] => print "没有可用的格式";; mret []
     | Some formats =>
         print (String (ascii_of_nat 10) "" +:+ "可用的视频格式:");;
         print rule;;
         print (ljust 10 "格式ID" +:+ ljust 10 "扩展名" +:+ ljust 15 "分辨率"
                +:+ ljust 15 "文件大小" +:+ ljust 20 "备注");;
         print rule;;
         for_each (λ f, print (format_row f)) formats;;
         print rule;;
         print "特殊格式选项:";;
         print "best       - 最佳视频和音频质量";;
         print "bestvideo+bestaudio - 分别选择最佳视频和音频并合并";;
         print rule;;
         mret formats
     end)
    (except_Exception
       (λ e, print ("获取格式列表时出错: " +:+ str_exn e);; mret [])).

(** *** The program *)

Record args := {
  arg_url : option string;
  arg_path : string;
  arg_proxy : string;
  arg_format : string;
  arg_no_proxy : bool;
  arg_list_formats : bool
}.

(** What one run of the script finds: the answers to the format query, to
    the download and to the second, direct download. *)
Record run_env := {
  formats_env : formats_answer;
  first_env : dl_env;
  direct_env : dl_env
}.

Section main.
Variable env : run_env.

Definition ask_proxy (proxy : option string) : IO (option string) :=
  answer ← input ("是否使用代理 " +:+ str_opt proxy +:+ "？(y/n): ");
  let use_proxy := String.eqb (strip (lower answer)) "y" in
  if negb use_proxy then mret None
  else
    custom ← input "请输入自定义代理地址（留空使用默认值）: ";
    let custom_proxy := strip custom in
    if truthy custom_proxy then mret (Some custom_proxy) else mret proxy.

Definition main_body (cl : cmdline args) : IO unit :=
  a ← lift (parse_args cl);
  let given_url := truthy_opt (arg_url a) in
  video_url ←
    (if given_url then mret (default "" (arg_url a))
     else input "请输入YouTube视频链接: ");
  download_path ←
    (if String.eqb (arg_path a) "." && negb given_url then
       p ← input "请输入保存路径（留空为当前目录）: ";
       mret (if truthy (strip p) then strip p else ".")
     else mret (arg_path a));
  let proxy := if arg_no_proxy a then None else Some (arg_proxy a) in
  proxy ←
    (if negb given_url && negb (arg_no_proxy a)
     then ask_proxy proxy else mret proxy);
  lift (print ("视频链接: " +:+ video_url));;
  lift (print ("保存路径: " +:+ download_path));;
  lift (print ("代理设置: " +:+ str_opt proxy));;
  let video_format := arg_format a in
  want_list ←
    (if arg_list_formats a then mret true
     else if negb given_url then
       c ← input "是否列出可用的视频格式？(y/n): ";
       mret (String.eqb (strip (lower c)) "y")
     else mret false);
  video_format ←
    (if want_list : bool then
       formats ← lift (list_formats (formats_env env) video_url proxy);
       match formats with
       | _ :: _ =>
           if negb (truthy (arg_format a)) then
             c ← input "请选择格式ID（直接回车使用best）: ";
             let format_choice := strip c in
             mret (if truthy format_choice then format_choice else video_format)
           else mret video_format
       | [] => mret video_format
       end
     else mret video_format);
  lift (print ("视频格式: " +:+ video_format));;
  success ← lift (download_video (first_env env) video_url download_path
                    proxy video_format 3);
  if negb success && truthy_opt proxy then
    c ← input "使用代理下载失败，是否尝试直接下载？(y/n): ";
    let try_direct := String.eqb (strip (lower c)) "y" in
    if try_direct then
      lift (print "尝试直接下载...");;
      lift (download_video (direct_env env) video_url download_path None
              (arg_format a) 3);;
      mret tt
    else mret tt
  else mret tt.

Definition main (cl : cmdline args) (inp : list stdin_item) : Py unit :=
  try_except (main_body cl inp ≫= λ _, mret tt) main_handlers.

End main.

End Single.

(** * Vocabulary of the properties *)

(** The message the loop records for a failed attempt. *)
Definition failure_message (a : extract_answer) : string :=
  match a with
  | Raise (DownloadError msg) => "下载错误: " +:+ msg
  | Raise e => "发生错误: " +:+ str_exn e
  | _ => "无法获取视频信息"
  end.

(** The waits after the failed attempts number [r + 1] to [r + j]. *)
Definition backoff_waits (r j : nat) : list Z :=
  map (λ i, 2 ^ Z.of_nat i) (seq (S r) j).

(** The directory step of [download_video] raises nothing. *)
Definition output_path_ready (env : dl_env) : Prop :=
  path_exists env = true ∨ makedirs_error env = None.

(** The message held in [error_msg] after the failed attempts [r] to
    [r + j - 1], when it was [error_msg] before them. *)
Definition last_error (env : dl_env) (r j : nat) (error_msg : string) : string :=
  match j with
  | O => error_msg
  | S j' => failure_message (extract_info env (r + j')%nat)
  end.

(** Applying a function to the value a computation returns. *)
Definition outcome_map {A B} (f : A → B) (o : outcome A) : outcome B :=
  match o with
  | Return a => Return (f a)
  | Raise e => Raise e
  | Diverge => Diverge
  end.
Definition Py_map {A B} (f : A → B) (m : Py A) : Py B :=
  (m.1, outcome_map f m.2).

(** The success flag of the tuple [download_video] returns. *)
Definition succeeded (r : Batch.dl_result) : bool := r.1.1.

(** ** Vocabulary of the batch *)

(** The tuple the batch records for the task of [url] whose run ended as
    [o]; none when [o] is not something the loop collects. *)
Definition collected (url : string) (o : outcome Batch.dl_result)
    : option Batch.batch_result :=
  match o with
  | Return (success, title, error) => Some (url, success, title, error)
  | Raise e => if is_Exception e then Some (url, false, "", str_exn e) else None
  | Diverge => None
  end.

Section batch_vocabulary.
Variables (pool : Batch.pool_env) (urls : list string) (output_path : string).
Variables (proxy : option string) (format : string) (max_retries : Z).

(** How the task behind [future] ended. *)
Definition task_end (future : nat) : option (string * outcome Batch.dl_result) :=
  url ← urls !! future;
  Some (url, result_of (Batch.task_run pool urls output_path proxy format
                          max_retries future url)).

(** The tuple recorded for [future]. *)
Definition task_outcome (future : nat) : option Batch.batch_result :=
  ue ← task_end future; collected ue.1 ue.2.

End batch_vocabulary.

(** A task ends by returning or by raising an [Exception]. *)
Definition settles (o : outcome Batch.dl_result) : bool :=
  match o with
  | Return _ => true
  | Raise e => is_Exception e
  | Diverge => false
  end.

(** Writing the report is not interrupted. *)
Definition report_settles (fs : Batch.file_env) (output_path : string) : Prop :=
  ∀ e, Batch.open_write fs (path_join output_path "download_results.csv") = Some e →
       is_Exception e = true.

(** The URL field of a collected tuple. *)
Definition result_url (r : Batch.batch_result) : string := r.1.1.1.

(** ** Vocabulary of the URL reader *)

(** The path has the extension [.csv], in any case of the letters. *)
Definition is_csv (file_path : string) : bool :=
  String.eqb (lower (snd (splitext file_path))) ".csv".

(** The URLs of a list of csv rows, in the words of the specification:
    the stripped first column of every row whose first column is not
    empty once stripped. *)
Definition csv_urls (rows : list (list string)) : list string :=
  strip <$> filter (λ col0, truthy (strip col0) = true) (omap head rows).

(** The URLs of a list of lines, in the words of the specification: every
    stripped line that is not blank and does not start with [#]. *)
Definition text_urls (lines : list string) : list string :=
  filter (λ line, truthy line = true ∧ startswith "#" line = false)
    (strip <$> lines).

(** The URLs among what the file yields, by its extension. *)
Definition urls_read (fs : Batch.file_env) (file_path : string) : list string :=
  if is_csv file_path
  then csv_urls (Batch.yielded (Batch.iter_csv fs file_path))
  else text_urls (Batch.yielded (Batch.iter_lines fs file_path)).

(** The exception that ends the reading of the file, if any: at [open],
    or in the iteration the extension selects. *)
Definition read_failure (fs : Batch.file_env) (file_path : string) : option pyexn :=
  match Batch.open_read fs file_path with
  | Some e => Some e
  | None =>
      if is_csv file_path
      then Batch.then_raises (Batch.iter_csv fs file_path)
      else Batch.then_raises (Batch.iter_lines fs file_path)
  end.

(** ** Sample environments *)

(** Two failed attempts (a download error, then no metadata), then a
    success with the title [T]. *)
Definition env_fail2_then_ok : dl_env :=
  {| path_exists := true;
     makedirs_error := None;
     extract_info := λ n,
       match n with
       | O => Raise (DownloadError "boom")
       | S O => Return None
       | _ => Return (Some {[ "title" := "T" ]})
       end |}.

(** Every attempt fails with a download error. *)
Definition env_always_fails : dl_env :=
  {| path_exists := true;
     makedirs_error := None;
     extract_info := λ _, Raise (DownloadError "unavailable") |}.

(** A task that finds its output directory missing and may not create it. *)
Definition env_no_dir : dl_env :=
  {| path_exists := false;
     makedirs_error := Some (OtherException "Permission denied");
     extract_info := λ _, Return None |}.

(** A task in which the extractor leaves the interpreter. *)
Definition env_exits : dl_env :=
  {| path_exists := true;
     makedirs_error := None;
     extract_info := λ _, Raise (SystemExit 1) |}.

(** A file system on which every file opens and is empty. *)
Definition fs_empty : Batch.file_env :=
  {| Batch.open_read := λ _, None;
     Batch.iter_lines := λ _, {| Batch.yielded := []; Batch.then_raises := None |};
     Batch.iter_csv := λ _, {| Batch.yielded := []; Batch.then_raises := None |};
     Batch.open_write := λ _, None |}.

(** A text file that yields one URL and then fails, and a csv file with a
    header-like first row and three more rows. *)
Definition fs_sample : Batch.file_env :=
  {| Batch.open_read := λ p,
       if String.eqb p "missing.txt"
       then Some (OtherException "No such file or directory") else None;
     Batch.iter_lines := λ _,
       {| Batch.yielded := ["http://a" +:+ String (ascii_of_nat 10) ""];
          Batch.then_raises := Some (OtherException "Input/output error") |};
     Batch.iter_csv := λ _,
       {| Batch.yielded := [["#url"; "note"]; [" http://b "; "x"]; []; ["  "]];
          Batch.then_raises := None |};
     Batch.open_write := λ _, None |}.

(** Three tasks: the first succeeds at its third attempt, the second
    cannot create its directory, the third fails at every attempt; the
    third completes first, then the first, then the second. *)
Definition pool_mixed : Batch.pool_env :=
  {| Batch.task_env := λ i,
       match i with
       | O => env_fail2_then_ok
       | S O => env_no_dir
       | _ => env_always_fails
       end;
     Batch.completion_order := [2; 0; 1]%nat;
     Batch.interrupt_at := None |}.

(** Two tasks, the first of which leaves the interpreter. *)
Definition pool_exits : Batch.pool_env :=
  {| Batch.task_env := λ i,
       match i with
       | O => env_exits
       | _ => env_fail2_then_ok
       end;
     Batch.completion_order := [0; 1]%nat;
     Batch.interrupt_at := None |}.

(** The command line [--urls a b c --path out --no-proxy --workers 2], and
    the command line without arguments. *)
Definition args_three_urls : Batch.args :=
  {| Batch.arg_file := None;
     Batch.arg_urls := Some ["a"; "b"; "c"];
     Batch.arg_path := "out";
     Batch.arg_proxy := "http://127.0.0.1:2090";
     Batch.arg_format := "best";
     Batch.arg_no_proxy := true;
     Batch.arg_workers := 2;
     Batch.arg_retries := 3 |}.

Definition args_interactive : Batch.args :=
  {| Batch.arg_file := None;
     Batch.arg_urls := None;
     Batch.arg_path := ".";
     Batch.arg_proxy := "http://127.0.0.1:2090";
     Batch.arg_format := "best";
     Batch.arg_no_proxy := false;
     Batch.arg_workers := 3;
     Batch.arg_retries := 3 |}.

(** The single-download script with [--url u --no-proxy], every attempt of
    the download failing, and without arguments. *)
Definition single_args_url : Single.args :=
  {| Single.arg_url := Some "u";
     Single.arg_path := ".";
     Single.arg_proxy := "http://127.0.0.1:10809";
     Single.arg_format := "best";
     Single.arg_no_proxy := true;
     Single.arg_list_formats := false |}.

Definition single_args_interactive : Single.args :=
  {| Single.arg_url := None;
     Single.arg_path := ".";
     Single.arg_proxy := "http://127.0.0.1:10809";
     Single.arg_format := "best";
     Single.arg_no_proxy := false;
     Single.arg_list_formats := false |}.

Definition single_env_fails : Single.run_env :=
  {| Single.formats_env := Return None;
     Single.first_env := env_always_fails;
     Single.direct_env := env_always_fails |}.

(** A download in which the third attempt is interrupted. *)
Definition env_interrupted : dl_env :=
  {| path_exists := true;
     makedirs_error := None;
     extract_info := λ n,
       match n with
       | O | S O => Return None
       | _ => Raise KeyboardInterrupt
       end |}.

(** ** Vocabulary of the traces *)

(** The events [download_video] may perform for one task: a line that
    starts with the task's prefix, the line that reports the new
    directory, the creation of that directory, a call of the extractor
    for the task's URL with the task's options, or a sleep. *)
Definition progress_event (prefix url output_path : string) (opts : ydl_opts)
    (ev : event) : Prop :=
  match ev with
  | EPrint line =>
      startswith prefix line = true ∨ line = "创建目录: " +:+ output_path
  | EExtract u o download => u = url ∧ o = opts ∧ download = true
  | EMakedirs p => p = output_path
  | ESleep _ => True
  | _ => False
  end.

(** The event does not read standard input. *)
Definition no_input (ev : event) : Prop :=
  match ev with
  | EInput _ => False
  | _ => True
  end.

(** The event does not write the report. *)
Definition no_report (ev : event) : Prop :=
  match ev with
  | EWriteCsv _ _ => False
  | _ => True
  end.

(** The event is a printed line. *)
Definition is_print (ev : event) : Prop :=
  match ev with
  | EPrint _ => True
  | _ => False
  end.

(** The pool [pool] with another order of completion. *)
Definition reordered (pool : Batch.pool_env) (order : list nat) : Batch.pool_env :=
  {| Batch.task_env := Batch.task_env pool;
     Batch.completion_order := order;
     Batch.interrupt_at := Batch.interrupt_at pool |}.

(** A file system on which the report cannot be written. *)
Definition fs_read_only : Batch.file_env :=
  {| Batch.open_read := λ _, None;
     Batch.iter_lines := λ _, {| Batch.yielded := []; Batch.then_raises := None |};
     Batch.iter_csv := λ _, {| Batch.yielded := []; Batch.then_raises := None |};
     Batch.open_write := λ _, Some (OtherException "Read-only file system") |}.

(** The pool of three tasks interrupted when two futures are handled. *)
Definition pool_interrupted : Batch.pool_env :=
  {| Batch.task_env := Batch.task_env pool_mixed;
     Batch.completion_order := [2; 0; 1]%nat;
     Batch.interrupt_at := Some 2%nat |}.

(** The command line [--file missing.txt]. *)
Definition args_missing_file : Batch.args :=
  {| Batch.arg_file := Some "missing.txt";
     Batch.arg_urls := None;
     Batch.arg_path := ".";
     Batch.arg_proxy := "http://127.0.0.1:2090";
     Batch.arg_format := "best";
     Batch.arg_no_proxy := false;
     Batch.arg_workers := 3;
     Batch.arg_retries := 3 |}.

(** One entry of a list of formats. *)
Definition fmt_mp4 : Single.fmt_entry :=
  {| Single.fmt_format_id := Some "18";
     Single.fmt_ext := Some "mp4";
     Single.fmt_resolution := Some "640x360";
     Single.fmt_filesize_mb := Some "12.50";
     Single.fmt_format_note := None |}.

(** A call of the extractor for a download asks for the format [fmt]. *)
Definition uses_format (fmt : string) (ev : event) : Prop :=
  match ev with
  | EExtract _ opts _ => opt_format opts = fmt
  | _ => True
  end.

(** The single-download script run without arguments, the user asking
    for the list of formats. *)
Definition single_env_formats : Single.run_env :=
  {| Single.formats_env := Return (Some [fmt_mp4]);
     Single.first_env := env_fail2_then_ok;
     Single.direct_env := env_always_fails |}.

(** * Properties *)

(** ** The execution monad *)

Lemma bind_Return {A B} (t : list event) (a : A) (f : A → Py B) :
  (t, Return a) ≫= f = (t ++ (f a).1, (f a).2).
Proof. reflexivity. Qed.

Lemma bind_Raise {A B} (t : list event) (e : pyexn) (f : A → Py B) :
  (t, Raise e) ≫= f = (t, Raise e).
Proof. reflexivity. Qed.

Lemma bind_Diverge {A B} (t : list event) (f : A → Py B) :
  (t, Diverge) ≫= f = (t, Diverge).
Proof. reflexivity. Qed.

Lemma fetch_calls_app (t1 t2 : list event) :
  fetch_calls (t1 ++ t2) = (fetch_calls t1 + fetch_calls t2)%nat.
Proof. unfold fetch_calls. by rewrite filter_app, length_app. Qed.

Lemma fetch_calls_cons (ev : event) (t : list event) :
  fetch_calls (ev :: t) =
    if is_extract ev then S (fetch_calls t) else fetch_calls t.
Proof. unfold fetch_calls. rewrite filter_cons. by destruct (is_extract ev). Qed.

Lemma waits_cons (ev : event) (t : list event) :
  waits (ev :: t) =
    match ev with ESleep s => s :: waits t | _ => waits t end.
Proof. by destruct ev. Qed.

Lemma waits_app (t1 t2 : list event) : waits (t1 ++ t2) = waits t1 ++ waits t2.
Proof. unfold waits. apply omap_app. Qed.

Lemma total_wait_app (t1 t2 : list event) :
  total_wait (t1 ++ t2) = total_wait t1 + total_wait t2.
Proof.
  unfold total_wait. rewrite waits_app.
  induction (waits t1) as [|w ws IH]; simpl; [done | lia].
Qed.

(** ** The retry loop *)

Section retry_facts.
Variable env : dl_env.
Variables (url output_path : string) (proxy : option string) (format : string).
Variable max_retries : Z.
Variables index total : option Z.

Local Abbreviation attempt :=
  (Batch.attempt env url output_path proxy format index total).
Local Abbreviation retry_loop :=
  (Batch.retry_loop env url output_path proxy format max_retries index total).
Local Abbreviation download_video :=
  (Batch.download_video env url output_path proxy format max_retries index total).
Local Abbreviation prefix := (Batch.prefix index total).
Local Abbreviation the_call :=
  (EExtract url (Batch.make_opts output_path proxy format) true).

Lemma attempt_failure (n : nat) :
  attempt_fails (extract_info env n) = true →
  attempt (Z.of_nat n) =
    ([EPrint (prefix +:+ "尝试下载 " +:+ url +:+ "..."); the_call;
      EPrint (prefix +:+ failure_message (extract_info env n))],
     Return (inr (failure_message (extract_info env n)))).
Proof.
  unfold Batch.attempt, Batch.call_extract_info. rewrite Nat2Z.id.
  destruct (extract_info env n) as [[d|]|[]|]; simpl; try done.
  - unfold try_except, mbind, Py_bind; simpl.
    case_bool_decide; simpl; done.
Qed.

Lemma attempt_success (n : nat) (d : info_dict) :
  attempt_succeeds (extract_info env n) = Some d →
  attempt (Z.of_nat n) =
    ([EPrint (prefix +:+ "尝试下载 " +:+ url +:+ "..."); the_call;
      EPrint (prefix +:+ "下载完成: " +:+ info_title d)],
     Return (inl (true, info_title d, ""))).
Proof.
  unfold Batch.attempt, Batch.call_extract_info. rewrite Nat2Z.id.
  destruct (extract_info env n) as [[d'|]|[]|]; simpl; try done.
  unfold try_except, mbind, Py_bind; simpl.
  case_bool_decide; simpl; [|done]. by intros [= ->].
Qed.

Lemma retry_loop_step (fuel : nat) (retries : Z) (error_msg : string) :
  retry_loop (S fuel) retries error_msg =
    if retries <? max_retries then
      r ← attempt retries;
      match r with
      | inl res => mret res
      | inr error_msg =>
          (if retries + 1 <? max_retries then
             print (prefix +:+ "等待 " +:+ pretty (2 ^ (retries + 1))
                    +:+ " 秒后重试... (" +:+ pretty (retries + 1) +:+ "/"
                    +:+ pretty max_retries +:+ ")");;
             emit (ESleep (2 ^ (retries + 1)))
           else mret tt);;
          retry_loop fuel (retries + 1) error_msg
      end
    else
      print (prefix +:+ "达到最大重试次数，下载失败");;
      mret (false, "", error_msg).
Proof. reflexivity. Qed.

(** The fuel is only a bound for the recursion: any amount above the
    number of attempts left gives the same run. *)
Lemma retry_loop_fuel (fuel1 : nat) :
  ∀ (fuel2 : nat) (retries : Z) (error_msg : string),
    (Z.to_nat (max_retries - retries) < fuel1)%nat →
    (Z.to_nat (max_retries - retries) < fuel2)%nat →
    retry_loop fuel1 retries error_msg = retry_loop fuel2 retries error_msg.
Proof.
  induction fuel1 as [|fuel1 IH]; intros [|fuel2] retries error_msg H1 H2;
    try lia.
  rewrite !retry_loop_step.
  destruct (retries <? max_retries) eqn:Hlt; [|done].
  apply Z.ltb_lt in Hlt.
  destruct (attempt retries) as [t [[res|msg]|e|]]; try done.
  rewrite !bind_Return. by rewrite (IH fuel2) by lia.
Qed.

(** [j] failures from attempt [r] on, then a success within the limit. *)
Lemma retry_loop_success (j : nat) :
  ∀ (r : nat) (error_msg : string) (fuel : nat) (d : info_dict),
    (∀ i, (r ≤ i < r + j)%nat → attempt_fails (extract_info env i) = true) →
    attempt_succeeds (extract_info env (r + j)) = Some d →
    Z.of_nat (r + j) < max_retries →
    (j < fuel)%nat →
    ∃ t, (retry_loop fuel (Z.of_nat r) error_msg =
            (t ++ [the_call; EPrint (prefix +:+ "下载完成: " +:+ info_title d)],
             Return (true, info_title d, "")))
         ∧ fetch_calls t = j
         ∧ waits t = backoff_waits r j.
Proof.
  induction j as [|j IH]; intros r error_msg [|fuel] d Hfail Hok Hlt Hfuel;
    try lia; rewrite retry_loop_step.
  - rewrite Nat.add_0_r in Hok, Hlt.
    apply Z.ltb_lt in Hlt as ->.
    rewrite (attempt_success _ _ Hok).
    rewrite bind_Return.
    by exists [EPrint (prefix +:+ "尝试下载 " +:+ url +:+ "...")].
  - assert ((Z.of_nat r <? max_retries) = true) as -> by (apply Z.ltb_lt; lia).
    rewrite attempt_failure by (apply Hfail; lia).
    rewrite bind_Return.
    assert ((Z.of_nat r + 1 <? max_retries) = true) as -> by (apply Z.ltb_lt; lia).
    replace (Z.of_nat r + 1) with (Z.of_nat (S r)) by lia.
    destruct (IH (S r) (failure_message (extract_info env r)) fuel d)
      as (t & -> & Hcalls & Hwaits).
    + intros i Hi. apply Hfail. lia.
    + by replace (S r + j)%nat with (r + S j)%nat by lia.
    + lia.
    + lia.
    + cbn [mbind Py_bind mret Py_ret print emit fst snd app].
      eexists (_ :: _ :: _ :: _ :: _ :: t). split; [reflexivity|].
      rewrite !fetch_calls_cons, !waits_cons, Hcalls, Hwaits.
      by cbn [is_extract].
Qed.

(** [j] failures from attempt [r] on use up the limit. *)
Lemma retry_loop_exhausted (j : nat) :
  ∀ (r : nat) (error_msg : string) (fuel : nat),
    (∀ i, (r ≤ i < r + j)%nat → attempt_fails (extract_info env i) = true) →
    max_retries ≤ Z.of_nat (r + j) →
    j = 0%nat ∨ Z.of_nat (r + j) = max_retries →
    (j < fuel)%nat →
    ∃ t, (retry_loop fuel (Z.of_nat r) error_msg =
            (t ++ [EPrint (prefix +:+ "达到最大重试次数，下载失败")],
             Return (false, "", last_error env r j error_msg)))
         ∧ fetch_calls t = j
         ∧ waits t = backoff_waits r (pred j).
Proof.
  induction j as [|j IH]; intros r error_msg [|fuel] Hfail Hmax Heq Hfuel;
    try lia; rewrite retry_loop_step.
  - rewrite Nat.add_0_r in Hmax.
    assert ((Z.of_nat r <? max_retries) = false) as -> by (apply Z.ltb_ge; lia).
    by exists [].
  - destruct Heq as [|Heq]; [lia|].
    assert ((Z.of_nat r <? max_retries) = true) as -> by (apply Z.ltb_lt; lia).
    rewrite attempt_failure by (apply Hfail; lia).
    rewrite bind_Return.
    replace (Z.of_nat r + 1) with (Z.of_nat (S r)) by lia.
    destruct (IH (S r) (failure_message (extract_info env r)) fuel)
      as (t & -> & Hcalls & Hwaits).
    + intros i Hi. apply Hfail. lia.
    + lia.
    + destruct j; [by left | right; lia].
    + lia.
    + assert (last_error env (S r) j (failure_message (extract_info env r))
              = last_error env r (S j) error_msg) as ->.
      { destruct j as [|j]; cbn [last_error].
        - by rewrite Nat.add_0_r.
        - by replace (S r + j)%nat with (r + S j)%nat by lia. }
      destruct j as [|j].
      * assert ((Z.of_nat (S r) <? max_retries) = false) as ->
          by (apply Z.ltb_ge; lia).
        cbn [mbind Py_bind mret Py_ret print emit fst snd app].
        eexists (_ :: _ :: _ :: t). split; [reflexivity|].
        rewrite !fetch_calls_cons, !waits_cons, Hcalls, Hwaits.
        by cbn [is_extract].
      * assert ((Z.of_nat (S r) <? max_retries) = true) as ->
          by (apply Z.ltb_lt; lia).
        cbn [mbind Py_bind mret Py_ret print emit fst snd app].
        eexists (_ :: _ :: _ :: _ :: _ :: t). split; [reflexivity|].
        rewrite !fetch_calls_cons, !waits_cons, Hcalls, Hwaits.
        by cbn [is_extract].
Qed.

Lemma ensure_output_path_ready :
  output_path_ready env →
  ∃ t, Batch.ensure_output_path env output_path = (t, Return tt)
       ∧ fetch_calls t = 0%nat ∧ waits t = [].
Proof.
  unfold Batch.ensure_output_path. intros [Hex | Hmk].
  - rewrite Hex. by exists [].
  - destruct (path_exists env); [by exists []|]. rewrite Hmk.
    by eexists [_; _].
Qed.

End retry_facts.

(** ** The loop of the single-download script *)

(** The single-download script runs the loop of the batch script without
    the [index/total] prefix and without keeping the error message. *)
Section single_loop.
Variable env : dl_env.
Variables (url output_path : string) (proxy : option string) (format : string).
Variable max_retries : Z.

Lemma single_retry_loop (fuel : nat) :
  ∀ (retries : Z) (error_msg : string),
    Single.retry_loop env url output_path proxy format max_retries fuel retries =
    Py_map succeeded
      (Batch.retry_loop env url output_path proxy format max_retries None None
         fuel retries error_msg).
Proof.
  induction fuel as [|fuel IH]; intros retries error_msg; [done|].
  cbn [Single.retry_loop Batch.retry_loop].
  destruct (retries <? max_retries); [|done].
  unfold Single.attempt, Batch.attempt, Single.call_extract_info,
    Batch.call_extract_info.
  destruct (extract_info env (Z.to_nat retries)) as [[d|]|[]|];
    try done.
  - unfold try_except, mbind, Py_bind; simpl.
    case_bool_decide; simpl; [done|].
    rewrite (IH _ "无法获取视频信息").
    by destruct (retries + 1 <? max_retries).
  - unfold try_except, mbind, Py_bind; simpl.
    rewrite (IH _ "无法获取视频信息").
    by destruct (retries + 1 <? max_retries).
  - unfold try_except, mbind, Py_bind; simpl.
    rewrite (IH _ ("下载错误: " +:+ msg)).
    by destruct (retries + 1 <? max_retries).
  - unfold try_except, mbind, Py_bind; simpl.
    rewrite (IH _ ("发生错误: " +:+ msg)).
    by destruct (retries + 1 <? max_retries).
Qed.

Lemma single_download_video :
  Single.download_video env url output_path proxy format max_retries =
  Py_map succeeded
    (Batch.download_video env url output_path proxy format max_retries None None).
Proof.
  unfold Single.download_video, Batch.download_video.
  rewrite (single_retry_loop _ _ "").
  unfold Single.ensure_output_path, Batch.ensure_output_path.
  destruct (path_exists env); [done|].
  by destruct (makedirs_error env).
Qed.

End single_loop.

(** ** The claims on the retry loop *)

Lemma failure_message_nonempty (a : extract_answer) : failure_message a ≠ "".
Proof. by destruct a as [[d|]|[]|]. Qed.

Lemma backoff_total_closed (k : nat) :
  foldr Z.add 0 (backoff_waits 0 k) = 2 ^ Z.of_nat (S k) - 2.
Proof.
  unfold backoff_waits.
  assert (∀ r, foldr Z.add 0 (map (λ i, 2 ^ Z.of_nat i) (seq (S r) k))
               = 2 ^ Z.of_nat (S r + k) - 2 ^ Z.of_nat (S r)) as H.
  { induction k as [|k IH]; intros r; cbn [seq map foldr].
    - rewrite Nat.add_0_r. lia.
    - rewrite IH. replace (S r + S k)%nat with (S (S r) + k)%nat by lia.
      rewrite (Nat2Z.inj_succ (S r)), Z.pow_succ_r by lia. lia. }
  by rewrite H.
Qed.

(** C2: when the attempts 1 to k-1 fail and attempt k succeeds, with
    1 <= k <= max_retries, [download_video] returns [(True, title, "")]
    with the title taken from the metadata, makes exactly k calls of the
    extractor, the last one followed only by the line that reports the
    title, and sleeps 2^1, ..., 2^(k-1) seconds, one wait after each
    failed attempt and none after the last; the single-download script
    returns [True] after the same calls and waits. *)
Theorem download_video_first_success
    (env : dl_env) (url output_path : string) (proxy : option string)
    (format : string) (max_retries : Z) (index total : option Z)
    (k : nat) (d : info_dict)
    (Hready : output_path_ready env)
    (Hk : (1 ≤ k)%nat ∧ Z.of_nat k ≤ max_retries)
    (Hfail : ∀ i, (i < k - 1)%nat → attempt_fails (extract_info env i) = true)
    (Hok : attempt_succeeds (extract_info env (k - 1)) = Some d) :
  let run := Batch.download_video env url output_path proxy format
               max_retries index total in
  let run1 := Single.download_video env url output_path proxy format
                max_retries in
  result_of run = Return (true, info_title d, "")
  ∧ fetch_calls (trace_of run) = k
  ∧ (∃ t, trace_of run =
          t ++ [EExtract url (Batch.make_opts output_path proxy format) true;
                EPrint (Batch.prefix index total +:+ "下载完成: "
                        +:+ info_title d)])
  ∧ waits (trace_of run) = backoff_waits 0 (k - 1)
  ∧ total_wait (trace_of run) = foldr Z.add 0 (backoff_waits 0 (k - 1))
  ∧ result_of run1 = Return true
  ∧ fetch_calls (trace_of run1) = k
  ∧ waits (trace_of run1) = backoff_waits 0 (k - 1).
Proof.
  assert (∀ index total,
    let run := Batch.download_video env url output_path proxy format
                 max_retries index total in
    result_of run = Return (true, info_title d, "")
    ∧ fetch_calls (trace_of run) = k
    ∧ (∃ t, trace_of run =
            t ++ [EExtract url (Batch.make_opts output_path proxy format) true;
                  EPrint (Batch.prefix index total +:+ "下载完成: "
                          +:+ info_title d)])
    ∧ waits (trace_of run) = backoff_waits 0 (k - 1)) as Hbatch.
  { clear index total. intros index total.
    destruct (ensure_output_path_ready env output_path Hready)
      as (t0 & Hens & Hc0 & Hw0).
    destruct (retry_loop_success env url output_path proxy format max_retries
                index total (k - 1) 0 "" (S (Z.to_nat max_retries)) d)
      as (t & Hloop & Hcalls & Hwaits).
    - intros i Hi. apply Hfail. lia.
    - exact Hok.
    - lia.
    - lia.
    - cbn zeta. unfold Batch.download_video.
      change (Z.of_nat 0) with 0 in Hloop.
      rewrite Hens, Hloop, bind_Return. unfold result_of, trace_of.
      cbn [fst snd]. split; [done|]. split; [|split].
      + rewrite !fetch_calls_app, !fetch_calls_cons, Hc0, Hcalls.
        cbn [is_extract]. change (fetch_calls []) with 0%nat. lia.
      + exists (t0 ++ t). by rewrite app_assoc.
      + rewrite !waits_app, !waits_cons, Hw0, Hwaits.
        change (waits []) with (@nil Z). by rewrite app_nil_r. }
  cbn zeta. destruct (Hbatch index total) as (Hres & Hcalls & Hlast & Hwaits).
  repeat split; try done.
  - unfold total_wait. by rewrite Hwaits.
  - rewrite single_download_video. unfold result_of, Py_map. cbn [snd].
    destruct (Hbatch None None) as (Hres' & _). unfold result_of in Hres'.
    by rewrite Hres'.
  - rewrite single_download_video. unfold trace_of, Py_map. cbn [fst].
    by destruct (Hbatch None None) as (_ & Hcalls' & _).
  - rewrite single_download_video. unfold trace_of, Py_map. cbn [fst].
    by destruct (Hbatch None None) as (_ & _ & _ & Hwaits').
Qed.

Lemma download_video_first_success_witness :
  result_of (Batch.download_video env_fail2_then_ok "u" "out" None "best" 3
               (Some 1) (Some 5))
  = Return (true, "T", "").
Proof.
  refine (proj1 (download_video_first_success env_fail2_then_ok "u" "out" None
                   "best" 3 (Some 1) (Some 5) 3 {[ "title" := "T" ]} _ _ _ _)).
  - by left.
  - simpl. lia.
  - intros [|[|i]] Hi; [reflexivity | reflexivity | simpl in Hi; lia].
  - reflexivity.
Defined.






(** ** The batch *)

Section batch_facts.
Variables (pool : Batch.pool_env) (fs : Batch.file_env).
Variables (urls : list string) (output_path : string).
Variables (proxy : option string) (format : string).
Variables max_workers max_retries : Z.

Local Abbreviation collect_one :=
  (Batch.collect_one pool urls output_path proxy format max_retries).
Local Abbreviation collect :=
  (Batch.collect pool urls output_path proxy format max_retries).
Local Abbreviation outcome_of :=
  (task_outcome pool urls output_path proxy format max_retries).
Local Abbreviation batch_download :=
  (Batch.batch_download pool fs urls output_path proxy format max_workers
     max_retries).

Lemma future_to_url_lookup (future : nat) :
  Batch.future_to_url urls !! future = urls !! future.
Proof. unfold Batch.future_to_url. apply lookup_map_seq_0. Qed.

(** One round of the loop appends the tuple of the future, or does not
    finish the round. *)
Lemma collect_one_outcome (future : nat) (results : list Batch.batch_result) :
  match outcome_of future with
  | Some r => ∃ t, collect_one future results = (t, Return (results ++ [r]))
  | None => ∀ t rs, collect_one future results ≠ (t, Return rs)
  end.
Proof.
  unfold task_outcome, task_end, Batch.collect_one, Batch.future_result.
  rewrite future_to_url_lookup.
  destruct (urls !! future) as [url|] eqn:Hurl; cbn [mbind option_bind fst snd].
  - destruct (result_of _) as [[[success title] error]|e|]; cbn [collected].
    + by eexists.
    + unfold try_except, except_Exception. cbn.
      destruct (is_Exception e); [by eexists | done].
    + done.
  - done.
Qed.

(** What the loop returns is the list it started from, extended by the
    tuple of each future in the order of completion. *)
Lemma collect_returned (futures : list nat) :
  ∀ (handled : nat) (acc : list Batch.batch_result) t results,
    collect futures handled acc = (t, Return results) →
    ∃ rs, results = acc ++ rs
          ∧ Forall2 (λ future r, outcome_of future = Some r) futures rs.
Proof.
  induction futures as [|future rest IH]; intros handled acc t results Hrun;
    cbn [Batch.collect] in Hrun.
  - injection Hrun as _ <-. exists []. by rewrite app_nil_r.
  - case_bool_decide; [done|].
    pose proof (collect_one_outcome future acc) as Hone.
    destruct (outcome_of future) as [r|] eqn:Hr.
    + destruct Hone as (t1 & Hone). rewrite Hone, bind_Return in Hrun.
      destruct (collect rest (S handled) (acc ++ [r])) as [t2 o2] eqn:Hrest.
      cbn [fst snd] in Hrun. injection Hrun as _ ->.
      destruct (IH _ _ _ _ Hrest) as (rs & -> & Hall).
      exists (r :: rs). split; [by rewrite <- app_assoc|].
      by constructor.
    + destruct (collect_one future acc) as [t1 [rs1|e|]] eqn:Hc.
      * by specialize (Hone t1 rs1).
      * done.
      * done.
Qed.

(** When nothing interrupts the loop and every future has a tuple, the
    loop returns. *)
Lemma collect_returns (futures : list nat) :
  ∀ (handled : nat) (acc rs : list Batch.batch_result),
    Batch.interrupt_at pool = None →
    Forall2 (λ future r, outcome_of future = Some r) futures rs →
    ∃ t, collect futures handled acc = (t, Return (acc ++ rs)).
Proof.
  induction futures as [|future rest IH]; intros handled acc rs Hint Hall;
    inversion Hall as [|? r ? rs' Hr Hrest]; subst; cbn [Batch.collect].
  - exists []. by rewrite app_nil_r.
  - rewrite Hint. rewrite bool_decide_eq_false_2 by done.
    pose proof (collect_one_outcome future acc) as Hone. rewrite Hr in Hone.
    destruct Hone as (t1 & ->). rewrite bind_Return.
    destruct (IH (S handled) (acc ++ [r]) rs' Hint Hrest) as (t2 & ->).
    eexists. by rewrite <- app_assoc.
Qed.

Lemma save_results_settles (results : list Batch.batch_result) :
  report_settles fs output_path →
  ∃ t, Batch.save_results fs results output_path = (t, Return tt).
Proof.
  unfold report_settles, Batch.save_results. intros Hset.
  destruct (Batch.open_write fs _) as [e|] eqn:Hw.
  - unfold try_except, except_Exception. cbn. rewrite (Hset e eq_refl).
    by eexists.
  - by eexists.
Qed.

Lemma batch_download_returned (results : list Batch.batch_result) :
  result_of batch_download = Return results →
  ∃ t, collect (Batch.completion_order pool) 0 [] = (t, Return results).
Proof.
  unfold Batch.batch_download, result_of.
  destruct (max_workers <=? 0);
    cbn [mbind Py_bind mret Py_ret print emit raise fst snd]; [done|].
  destruct (collect _ 0 []) as [t [rs|e|]];
    cbn [mbind Py_bind mret Py_ret fst snd]; [|done|done].
  destruct (Batch.save_results fs rs output_path) as [t' [[]|e|]];
    cbn [mbind Py_bind mret Py_ret fst snd]; [|done|done].
  intros [= ->]. by exists t.
Qed.

Lemma batch_download_returns (t : list event) (results : list Batch.batch_result) :
  1 ≤ max_workers →
  report_settles fs output_path →
  collect (Batch.completion_order pool) 0 [] = (t, Return results) →
  result_of batch_download = Return results.
Proof.
  intros Hw Hset Hcol. unfold Batch.batch_download, result_of.
  assert ((max_workers <=? 0) = false) as -> by (apply Z.leb_gt; lia).
  cbn [mbind Py_bind mret Py_ret print emit fst snd].
  rewrite Hcol. cbn [mbind Py_bind mret Py_ret fst snd].
  by destruct (save_results_settles results Hset) as (t' & ->).
Qed.

(** A batch that nothing interrupts and whose tasks all end by returning
    or by raising an [Exception] returns the tuples of its tasks. *)
Lemma batch_download_settles :
  1 ≤ max_workers →
  Batch.interrupt_at pool = None →
  report_settles fs output_path →
  (∀ future, future ∈ Batch.completion_order pool →
             is_Some (outcome_of future)) →
  ∃ results,
    result_of batch_download = Return results
    ∧ Forall2 (λ future r, outcome_of future = Some r)
        (Batch.completion_order pool) results.
Proof.
  intros Hw Hint Hset Hall.
  assert (∃ rs, Forall2 (λ future r, outcome_of future = Some r)
                  (Batch.completion_order pool) rs) as (rs & Hrs).
  { induction (Batch.completion_order pool) as [|future rest IH].
    - by exists [].
    - destruct (Hall future) as (r & Hr); [by left|].
      destruct IH as (rs & Hrs); [intros f Hf; apply Hall; by right|].
      exists (r :: rs). by constructor. }
  destruct (collect_returns _ 0 [] rs Hint Hrs) as (t & Hcol).
  exists rs. split; [|done].
  by apply (batch_download_returns t).
Qed.

Lemma task_outcome_url (future : nat) (r : Batch.batch_result) :
  outcome_of future = Some r → urls !! future = Some (result_url r).
Proof.
  unfold task_outcome, task_end.
  destruct (urls !! future) as [url|]; [|done]. cbn.
  destruct (result_of _) as [[[success title] error]|e|]; cbn.
  - by intros [= <-].
  - destruct (is_Exception e); [|done]. by intros [= <-].
  - done.
Qed.

End batch_facts.

(** ** The claims on the batch *)

(** C1: the futures come back in some order, each once.  When
    [batch_download] returns, the list it returns has as many tuples as
    there are URLs, and the tuple at each position is the one of the task
    that completed at that position, its URL field the URL of that task.
    It does return when the pool has at least one worker, nothing
    interrupts it and every task ends by returning or by raising an
    [Exception]. *)
Theorem batch_download_one_outcome_per_url
    (pool : Batch.pool_env) (fs : Batch.file_env) (urls : list string)
    (output_path : string) (proxy : option string) (format : string)
    (max_workers max_retries : Z)
    (Horder : Permutation (Batch.completion_order pool) (seq 0 (length urls))) :
  let run := Batch.batch_download pool fs urls output_path proxy format
               max_workers max_retries in
  let outcome_of := task_outcome pool urls output_path proxy format
                      max_retries in
  (∀ results,
     result_of run = Return results →
     length results = length urls
     ∧ Forall2 (λ future r, urls !! future = Some (result_url r)
                            ∧ outcome_of future = Some r)
         (Batch.completion_order pool) results)
  ∧ (1 ≤ max_workers →
     Batch.interrupt_at pool = None →
     report_settles fs output_path →
     (∀ future, (future < length urls)%nat → is_Some (outcome_of future)) →
     ∃ results, result_of run = Return results).
Proof.
  cbn zeta. split.
  - intros results Hres.
    destruct (batch_download_returned _ _ _ _ _ _ _ _ _ Hres) as (t & Hcol).
    destruct (collect_returned _ _ _ _ _ _ _ _ _ _ _ Hcol) as (rs & -> & Hall).
    cbn [app]. split.
    + rewrite <- (Forall2_length _ _ _ Hall), (Permutation_length Horder).
      apply length_seq.
    + eapply Forall2_impl; [exact Hall|]. intros future r Hr. cbn beta.
      split; [|done].
      exact (task_outcome_url pool urls output_path proxy format max_retries
               future r Hr).
  - intros Hw Hint Hset Hall.
    destruct (batch_download_settles pool fs urls output_path proxy format
                max_workers max_retries Hw Hint Hset) as (results & Hres & _).
    + intros future Hin. apply Hall.
      rewrite Horder in Hin. apply elem_of_seq in Hin. lia.
    + by exists results.
Qed.

Lemma pool_mixed_order :
  Permutation (Batch.completion_order pool_mixed) (seq 0 (length ["a"; "b"; "c"])).
Proof.
  cbn. eapply perm_trans; [apply perm_swap|]. apply perm_skip, perm_swap.
Defined.

Lemma batch_download_one_outcome_per_url_witness :
  ∃ results,
    result_of (Batch.batch_download pool_mixed fs_empty ["a"; "b"; "c"] "out"
                 None "best" 2 3) = Return results
    ∧ length results = 3%nat.
Proof.
  destruct (batch_download_one_outcome_per_url pool_mixed fs_empty
              ["a"; "b"; "c"] "out" None "best" 2 3 pool_mixed_order)
    as [Hlen Hret].
  destruct Hret as (results & Hres).
  - lia.
  - reflexivity.
  - intros e He. discriminate He.
  - intros [|[|[|future]]] Hlt; [by vm_compute; eexists ..|simpl in Hlt; lia].
  - exists results. split; [exact Hres|]. by apply Hlen.
Defined.

(** C4 (amended): when the result of a task raises an exception [e] that
    is an instance of [Exception], the loop appends
    [(url, False, "", str(e))] for it and goes on.  So a batch in which
    every task ends by returning or by raising an [Exception] returns one
    tuple for each URL: the failure tuple at the position of each task
    that raised, and the returned values of the others at theirs. *)
Theorem batch_download_collects_task_errors
    (pool : Batch.pool_env) (fs : Batch.file_env) (urls : list string)
    (output_path : string) (proxy : option string) (format : string)
    (max_workers max_retries : Z)
    (Horder : Permutation (Batch.completion_order pool) (seq 0 (length urls)))
    (Hworkers : 1 ≤ max_workers)
    (Hint : Batch.interrupt_at pool = None)
    (Hreport : report_settles fs output_path)
    (Hends : ∀ future url o,
        task_end pool urls output_path proxy format max_retries future
          = Some (url, o) → settles o = true) :
  let run := Batch.batch_download pool fs urls output_path proxy format
               max_workers max_retries in
  let task_end := task_end pool urls output_path proxy format max_retries in
  (∀ future url e acc,
     task_end future = Some (url, Raise e) →
     result_of (Batch.collect_one pool urls output_path proxy format
                  max_retries future acc)
     = Return (acc ++ [(url, false, "", str_exn e)]))
  ∧ ∃ results,
      result_of run = Return results
      ∧ length results = length urls
      ∧ (∀ n future url e,
           Batch.completion_order pool !! n = Some future →
           task_end future = Some (url, Raise e) →
           results !! n = Some (url, false, "", str_exn e))
      ∧ (∀ n future url success title error,
           Batch.completion_order pool !! n = Some future →
           task_end future = Some (url, Return (success, title, error)) →
           results !! n = Some (url, success, title, error)).
Proof.
  cbn zeta.
  assert (∀ future url o,
    task_end pool urls output_path proxy format max_retries future
      = Some (url, o) →
    task_outcome pool urls output_path proxy format max_retries future
      = collected url o ∧ is_Some (collected url o)) as Hout.
  { intros future url o Hend. unfold task_outcome. rewrite Hend. cbn.
    split; [done|]. specialize (Hends _ _ _ Hend).
    destruct o as [[[success title] error]|e|]; cbn in *; [by eexists| |done].
    rewrite Hends. by eexists. }
  split.
  - intros future url e acc Hend.
    pose proof (collect_one_outcome pool urls output_path proxy format
                  max_retries future acc) as Hone.
    destruct (Hout _ _ _ Hend) as [Hto _]. rewrite Hto in Hone.
    cbn in Hone. rewrite (Hends _ _ _ Hend : is_Exception e = true) in Hone.
    destruct Hone as (t & ->). done.
  - destruct (batch_download_settles pool fs urls output_path proxy format
                max_workers max_retries Hworkers Hint Hreport)
      as (results & Hres & Hall).
    + intros future Hin. rewrite Horder in Hin. apply elem_of_seq in Hin.
      destruct (lookup_lt_is_Some_2 urls future) as (url & Hurl); [lia|].
      destruct (Hout future url
                  (result_of (Batch.task_run pool urls output_path proxy format
                                max_retries future url))) as [-> Hsome];
        [|done].
      unfold task_end. by rewrite Hurl.
    + exists results. split; [done|]. split; [|split].
      * rewrite <- (Forall2_length _ _ _ Hall), (Permutation_length Horder).
        apply length_seq.
      * intros n future url e Hn Hend.
        destruct (Forall2_lookup_l _ _ _ _ _ Hall Hn) as (r & Hrn & Hr).
        destruct (Hout _ _ _ Hend) as [Hto _]. rewrite Hto in Hr.
        cbn in Hr. rewrite (Hends _ _ _ Hend : is_Exception e = true) in Hr.
        by injection Hr as <-.
      * intros n future url success title error Hn Hend.
        destruct (Forall2_lookup_l _ _ _ _ _ Hall Hn) as (r & Hrn & Hr).
        destruct (Hout _ _ _ Hend) as [Hto _]. rewrite Hto in Hr.
        cbn in Hr. by injection Hr as <-.
Qed.

Lemma pool_mixed_settles (future : nat) (url : string)
    (o : outcome Batch.dl_result) :
  task_end pool_mixed ["a"; "b"; "c"] "out" None "best" 3 future = Some (url, o) →
  settles o = true.
Proof.
  destruct future as [|[|[|future]]]; intros [= <- <-]; reflexivity.
Defined.

Lemma batch_download_collects_task_errors_witness :
  ∃ results,
    result_of (Batch.batch_download pool_mixed fs_empty ["a"; "b"; "c"] "out"
                 None "best" 2 3) = Return results
    ∧ results !! 2%nat = Some ("b", false, "", "Permission denied").
Proof.
  destruct (batch_download_collects_task_errors pool_mixed fs_empty
              ["a"; "b"; "c"] "out" None "best" 2 3 pool_mixed_order)
    as (_ & results & Hres & _ & Hraise & _).
  - lia.
  - reflexivity.
  - intros e He. discriminate He.
  - exact pool_mixed_settles.
  - exists results. split; [exact Hres|].
    apply (Hraise 2%nat 1%nat "b" (OtherException "Permission denied"));
      reflexivity.
Defined.

(** C4 as stated fails for an exception that is not an instance of
    [Exception]: the first task leaves with [SystemExit], which the retry
    loop does not handle; the batch does not catch it either, and ends
    with it instead of returning the two tuples. *)
Lemma batch_download_aborted_by_SystemExit :
  let run := Batch.batch_download pool_exits fs_empty ["a"; "b"] "out" None
               "best" 2 3 in
  task_end pool_exits ["a"; "b"] "out" None "best" 3 0
    = Some ("a", Raise (SystemExit 1))
  ∧ result_of run = Raise (SystemExit 1)
  ∧ ¬ (∃ results, result_of run = Return results).
Proof.
  cbn zeta. split; [reflexivity|]. split; [reflexivity|].
  intros (results & Hres). vm_compute in Hres. discriminate Hres.
Qed.

(** ** The URL reader *)

Lemma foldl_csv_row_step (rows : list (list string)) :
  ∀ urls, foldl Batch.csv_row_step urls rows = urls ++ csv_urls rows.
Proof.
  unfold csv_urls.
  induction rows as [|row rows IH]; intros urls; cbn [foldl omap list_omap].
  - by rewrite app_nil_r.
  - rewrite IH. destruct row as [|col0 cols]; cbn [Batch.csv_row_step head].
    + done.
    + rewrite filter_cons. destruct (truthy (strip col0)) eqn:Hc.
      * rewrite decide_True by done. cbn [fmap list_fmap].
        by rewrite <- app_assoc.
      * by rewrite decide_False by done.
Qed.

Lemma foldl_text_line_step (lines : list string) :
  ∀ urls, foldl Batch.text_line_step urls lines = urls ++ text_urls lines.
Proof.
  unfold text_urls.
  induction lines as [|line lines IH]; intros urls;
    cbn [foldl fmap list_fmap].
  - by rewrite app_nil_r.
  - rewrite IH, filter_cons. unfold Batch.text_line_step.
    destruct (truthy (strip line)) eqn:Hc;
      destruct (startswith "#" (strip line)) eqn:Hs; cbn [andb negb].
    + rewrite decide_False by (by intros [_ ?]). done.
    + rewrite decide_True by done. by rewrite <- app_assoc.
    + rewrite decide_False by (by intros [? _]). done.
    + rewrite decide_False by (by intros [? _]). done.
Qed.

(** What [read_urls_from_file] does, case by case. *)
Lemma read_urls_from_file_cases (fs : Batch.file_env) (file_path : string) :
  Batch.read_urls_from_file fs file_path =
    match read_failure fs file_path with
    | None => ([EOpen file_path], Return (urls_read fs file_path))
    | Some e =>
        if is_Exception e then
          ([EOpen file_path; EPrint ("读取文件时出错: " +:+ str_exn e)],
           Return (match Batch.open_read fs file_path with
                   | Some _ => []
                   | None => urls_read fs file_path
                   end))
        else ([EOpen file_path], Raise e)
    end.
Proof.
  unfold Batch.read_urls_from_file, read_failure, urls_read, is_csv,
    Batch.read_block.
  destruct (String.eqb _ ".csv");
    (destruct (Batch.open_read fs file_path) as [e|];
     [by destruct (is_Exception e)|]).
  - rewrite foldl_csv_row_step. cbn [app].
    destruct (Batch.then_raises _) as [e|]; [|done].
    by destruct (is_Exception e).
  - rewrite foldl_text_line_step. cbn [app].
    destruct (Batch.then_raises _) as [e|]; [|done].
    by destruct (is_Exception e).
Qed.

Lemma strip_keeps_hash (s : string) :
  startswith "#" s = true →
  truthy (strip s) = true ∧ startswith "#" (strip s) = true.
Proof.
  unfold startswith, strip. destruct s as [|c s]; cbn [String.prefix]; [done|].
  destruct (ascii_dec "#" c) as [<-|]; [|done]. intros _.
  cbn [lstrip is_space]. change (is_space "#") with false. cbn [rstrip].
  by destruct (rstrip s).
Qed.



(** C10: in a .csv file the [#] is no comment marker: a row whose first
    column starts with [#] contributes that column, stripped, to the
    list returned; in a file of any other extension no URL returned
    starts with [#]. *)
Theorem read_urls_from_file_csv_keeps_hash
    (fs : Batch.file_env) (file_path : string) (col0 : string)
    (cols : list string)
    (Hcsv : is_csv file_path = true)
    (Hreadable : read_failure fs file_path = None)
    (Hrow : col0 :: cols ∈ Batch.yielded (Batch.iter_csv fs file_path))
    (Hhash : startswith "#" col0 = true) :
  (∃ urls,
     result_of (Batch.read_urls_from_file fs file_path) = Return urls
     ∧ strip col0 ∈ urls
     ∧ startswith "#" (strip col0) = true)
  ∧ (∀ other urls u,
       is_csv other = false →
       result_of (Batch.read_urls_from_file fs other) = Return urls →
       u ∈ urls → startswith "#" u = false).
Proof.
  destruct (strip_keeps_hash col0 Hhash) as [Hne Hstart]. split.
  - exists (urls_read fs file_path). split; [|split; [|done]].
    + by rewrite read_urls_from_file_cases, Hreadable.
    + unfold urls_read, csv_urls. rewrite Hcsv.
      apply list_elem_of_fmap_2, list_elem_of_filter. split; [done|].
      apply list_elem_of_omap. by exists (col0 :: cols).
  - intros other urls u Hother. rewrite read_urls_from_file_cases.
    assert (∀ v, v ∈ urls_read fs other → startswith "#" v = false) as Hall.
    { unfold urls_read, text_urls. rewrite Hother. intros v Hv.
      by apply list_elem_of_filter in Hv as [[_ ?] _]. }
    unfold result_of.
    destruct (read_failure fs other) as [e|]; cbn [snd].
    + destruct (is_Exception e); cbn [snd]; [|done].
      destruct (Batch.open_read fs other); intros [= <-] Hu;
        [by apply elem_of_nil in Hu | by apply Hall].
    + intros [= <-]. apply Hall.
Qed.

Lemma read_urls_from_file_csv_keeps_hash_witness :
  ∃ urls,
    result_of (Batch.read_urls_from_file fs_sample "list.csv") = Return urls
    ∧ "#url" ∈ urls.
Proof.
  destruct (read_urls_from_file_csv_keeps_hash fs_sample "list.csv" "#url"
              ["note"]) as [(urls & Hres & Hin & _) _].
  - reflexivity.
  - reflexivity.
  - left.
  - reflexivity.
  - exists urls. split; [exact Hres | exact Hin].
Defined.

(** C6 (amended): when the reading fails with an [Exception],
    [read_urls_from_file] prints the error and returns the URLs it read
    before the failure; that list is empty when the failure is at
    [open]. *)
Theorem read_urls_from_file_failure
    (fs : Batch.file_env) (file_path : string) (e : pyexn)
    (Hfails : read_failure fs file_path = Some e)
    (Hexc : is_Exception e = true) :
  Batch.read_urls_from_file fs file_path =
    ([EOpen file_path; EPrint ("读取文件时出错: " +:+ str_exn e)],
     Return (match Batch.open_read fs file_path with
             | Some _ => []
             | None => urls_read fs file_path
             end)).
Proof. by rewrite read_urls_from_file_cases, Hfails, Hexc. Qed.

Lemma read_urls_from_file_failure_witness :
  Batch.read_urls_from_file fs_sample "missing.txt" =
    ([EOpen "missing.txt"; EPrint "读取文件时出错: No such file or directory"],
     Return []).
Proof.
  exact (read_urls_from_file_failure fs_sample "missing.txt"
           (OtherException "No such file or directory") eq_refl eq_refl).
Defined.

(** C6 as stated fails when the failure comes after a URL was read: the
    text file yields one line and then an input/output error; the error
    is printed and the list returned holds the URL of that line. *)
Lemma read_urls_from_file_partial :
  read_failure fs_sample "urls.txt" = Some (OtherException "Input/output error")
  ∧ Batch.read_urls_from_file fs_sample "urls.txt" =
      ([EOpen "urls.txt"; EPrint "读取文件时出错: Input/output error"],
       Return ["http://a"])
  ∧ result_of (Batch.read_urls_from_file fs_sample "urls.txt") ≠ Return [].
Proof. split; [reflexivity|]. split; [reflexivity|]. by vm_compute. Qed.

(** ** The exit status *)

(** The status with which a script ends, from the way the body of its
    [main] ends. *)
Lemma main_handlers_status (body : Py unit) :
  exit_status (result_of (try_except body main_handlers)) =
    match result_of body with
    | Return _ => Some 0
    | Raise KeyboardInterrupt => Some 0
    | Raise (SystemExit code) => Some code
    | Raise _ => Some 1
    | Diverge => None
    end.
Proof. by destruct body as [t [[]|[]|]]. Qed.

Lemma result_of_discard {A} (m : Py A) :
  result_of (m ≫= λ _, mret tt) = outcome_map (λ _, tt) (result_of m).
Proof. by destruct m as [t [a|e|]]. Qed.




(** * Further properties *)

(** Counting the calls and the waits of a trace built from conses and
    appends. *)
Ltac count_events :=
  repeat (rewrite fetch_calls_cons || rewrite fetch_calls_app
          || rewrite waits_cons || rewrite waits_app);
  cbn [is_extract].

(** ** Every run of the retry loop *)

Section retry_general.
Variable env : dl_env.
Variables (url output_path : string) (proxy : option string) (format : string).
Variable max_retries : Z.
Variables index total : option Z.

Local Abbreviation attempt :=
  (Batch.attempt env url output_path proxy format index total).
Local Abbreviation retry_loop :=
  (Batch.retry_loop env url output_path proxy format max_retries index total).
Local Abbreviation prefix := (Batch.prefix index total).
Local Abbreviation the_call :=
  (EExtract url (Batch.make_opts output_path proxy format) true).

(** An attempt prints its first line, calls the extractor once and prints
    at most one more line; how it ends is decided by the answer. *)
Lemma attempt_shape (n : nat) :
  ∃ rest o,
    attempt (Z.of_nat n) =
      (EPrint (prefix +:+ "尝试下载 " +:+ url +:+ "...") :: the_call :: rest, o)
    ∧ fetch_calls rest = 0%nat
    ∧ waits rest = []
    ∧ match o with
      | Return (inl res) =>
          ∃ d, attempt_succeeds (extract_info env n) = Some d
               ∧ res = (true, info_title d, "")
      | Return (inr msg) =>
          attempt_fails (extract_info env n) = true
          ∧ msg = failure_message (extract_info env n)
      | Raise e => extract_info env n = Raise e ∧ is_Exception e = false
      | Diverge => extract_info env n = Diverge
      end.
Proof.
  destruct (attempt_fails (extract_info env n)) eqn:Hf.
  - rewrite (attempt_failure _ _ _ _ _ _ _ _ Hf). by eexists _, _.
  - destruct (attempt_succeeds (extract_info env n)) as [d|] eqn:Hs.
    + rewrite (attempt_success _ _ _ _ _ _ _ _ _ Hs). eexists _, _.
      repeat split; [done..|]. by exists d.
    + unfold Batch.attempt, Batch.call_extract_info. rewrite Nat2Z.id.
      destruct (extract_info env n) as [[d|]|e|]; cbn in Hf, Hs.
      * by case_bool_decide.
      * done.
      * destruct e; try done; unfold try_except; cbn; by eexists _, _.
      * by eexists _, _.
Qed.

(** What holds of every run of the loop that starts at attempt [r]: the
    number of calls, the waits, and how the run can end. *)
Lemma retry_loop_general (fuel : nat) :
  ∀ (r : nat) (error_msg : string),
    (Z.to_nat (max_retries - Z.of_nat r) < fuel)%nat →
    let run := retry_loop fuel (Z.of_nat r) error_msg in
    let calls := fetch_calls (trace_of run) in
    (calls ≤ Z.to_nat (max_retries - Z.of_nat r))%nat
    ∧ (Z.of_nat r < max_retries → (1 ≤ calls)%nat)
    ∧ (∃ j, waits (trace_of run) = backoff_waits r j ∧ (j ≤ pred calls)%nat)
    ∧ match result_of run with
      | Return (true, title, error) =>
          error = "" ∧ (1 ≤ calls)%nat
          ∧ ∃ d, attempt_succeeds (extract_info env (r + pred calls)) = Some d
                 ∧ title = info_title d
      | Return (false, title, error) =>
          title = ""
          ∧ calls = Z.to_nat (max_retries - Z.of_nat r)
          ∧ (calls = 0%nat → error = error_msg)
          ∧ (calls ≠ 0%nat → error ≠ "")
      | Raise e =>
          is_Exception e = false ∧ (1 ≤ calls)%nat
          ∧ extract_info env (r + pred calls) = Raise e
      | Diverge =>
          (1 ≤ calls)%nat ∧ extract_info env (r + pred calls) = Diverge
      end.
Proof.
  induction fuel as [|fuel IH]; intros r error_msg Hfuel; [lia|].
  cbn zeta. rewrite retry_loop_step.
  destruct (Z.of_nat r <? max_retries) eqn:Hlt.
  - apply Z.ltb_lt in Hlt.
    destruct (attempt_shape r) as (rest & o & -> & Hc & Hw & Ho).
    destruct o as [[res|msg]|e|].
    + destruct Ho as (d & Hd & ->). rewrite bind_Return.
      unfold trace_of, result_of. cbn [mret Py_ret fst snd].
      rewrite app_nil_r. count_events. rewrite Hc, Hw.
      cbn [pred]. rewrite Nat.add_0_r.
      split; [lia|]. split; [lia|]. split; [by exists 0%nat|].
      split; [done|]. split; [lia|]. by exists d.
    + destruct Ho as [Hf ->]. rewrite bind_Return.
      replace (Z.of_nat r + 1) with (Z.of_nat (S r)) by lia.
      assert (Z.to_nat (max_retries - Z.of_nat (S r)) < fuel)%nat as Hfuel'
        by lia.
      pose proof (IH (S r) (failure_message (extract_info env r)) Hfuel')
        as IH'.
      cbn zeta in IH'.
      destruct (retry_loop fuel (Z.of_nat (S r)) _) as [t2 o2].
      unfold trace_of, result_of in *. cbn [fst snd] in IH'.
      destruct IH' as (Hle & Hpos & (j & Hj & Hjle) & Hend).
      destruct (Z.of_nat (S r) <? max_retries) eqn:Hlt2;
        cbn [mbind Py_bind mret Py_ret print emit fst snd app];
        count_events; rewrite Hc, Hw; cbn [app pred Nat.add].
      * apply Z.ltb_lt in Hlt2. specialize (Hpos Hlt2).
        split; [lia|]. split; [lia|]. split.
        { exists (S j). rewrite Hj. split; [done|lia]. }
        replace (r + fetch_calls t2)%nat with (S r + pred (fetch_calls t2))%nat
          by lia.
        destruct o2 as [[[[] title] error]|e|].
        -- destruct Hend as (? & ? & ?). split; [done|]. split; [lia|done].
        -- destruct Hend as (-> & Hcalls & _ & Hne).
           split; [done|]. split; [lia|]. split; [lia|].
           intros _. apply Hne. lia.
        -- destruct Hend as (? & ? & ?). split; [done|]. split; [lia|done].
        -- destruct Hend as (? & ?). split; [lia|done].
      * apply Z.ltb_ge in Hlt2.
        assert (fetch_calls t2 = 0%nat) as Hz by lia. rewrite Hz in *.
        assert (j = 0%nat) as -> by lia.
        split; [lia|]. split; [lia|]. split; [by exists 0%nat|].
        destruct o2 as [[[[] title] error]|e|].
        -- destruct Hend as (_ & ? & _). lia.
        -- destruct Hend as (-> & _ & Heq & _).
           split; [done|]. split; [lia|]. split; [lia|].
           intros _. rewrite Heq by done. apply failure_message_nonempty.
        -- destruct Hend as (_ & ? & _). lia.
        -- destruct Hend as (? & _). lia.
    + destruct Ho as [He Hne]. rewrite bind_Raise.
      unfold trace_of, result_of. cbn [fst snd].
      count_events. rewrite Hc, Hw.
      cbn [pred]. rewrite Nat.add_0_r.
      split; [lia|]. split; [lia|]. split; [by exists 0%nat|].
      split; [done|]. split; [lia|done].
    + rewrite bind_Diverge.
      unfold trace_of, result_of. cbn [fst snd].
      count_events. rewrite Hc, Hw.
      cbn [pred]. rewrite Nat.add_0_r.
      split; [lia|]. split; [lia|]. split; [by exists 0%nat|].
      split; [lia|done].
  - apply Z.ltb_ge in Hlt.
    unfold trace_of, result_of.
    cbn [mbind Py_bind mret Py_ret print emit fst snd app].
    change (fetch_calls [EPrint _]) with 0%nat.
    split; [lia|]. split; [lia|]. split; [by exists 0%nat|].
    split; [done|]. split; [lia|]. split; [done|done].
Qed.

End retry_general.

(** ** Every run of [download_video] *)

Section download_video_general.
Variable env : dl_env.
Variables (url output_path : string) (proxy : option string) (format : string).
Variable max_retries : Z.
Variables index total : option Z.

Local Abbreviation retry_loop :=
  (Batch.retry_loop env url output_path proxy format max_retries index total).
Local Abbreviation download_video :=
  (Batch.download_video env url output_path proxy format max_retries index total).

(** Either the directory cannot be made and nothing else happens, or the
    run is the directory step followed by the loop. *)
Lemma download_video_cases :
  (path_exists env = false
   ∧ ∃ e, makedirs_error env = Some e
          ∧ download_video = ([EMakedirs output_path], Raise e))
  ∨ (output_path_ready env
     ∧ ∃ t0, fetch_calls t0 = 0%nat ∧ waits t0 = []
             ∧ download_video =
                 (t0 ++ (retry_loop (S (Z.to_nat max_retries)) 0 "").1,
                  (retry_loop (S (Z.to_nat max_retries)) 0 "").2)).
Proof.
  unfold Batch.download_video, Batch.ensure_output_path.
  destruct (path_exists env) eqn:Hex.
  - right. split; [by left|]. by exists [].
  - destruct (makedirs_error env) as [e|] eqn:Hmk.
    + left. split; [done|]. by exists e.
    + right. split; [by right|].
      exists [EMakedirs output_path; EPrint ("创建目录: " +:+ output_path)].
      split; [reflexivity|]. split; reflexivity.
Qed.

Lemma download_video_loop_facts :
  let run := retry_loop (S (Z.to_nat max_retries)) 0 "" in
  let calls := fetch_calls (trace_of run) in
  (calls ≤ Z.to_nat max_retries)%nat
  ∧ (∃ j, waits (trace_of run) = backoff_waits 0 j ∧ (j ≤ pred calls)%nat)
  ∧ match result_of run with
    | Return (true, title, error) =>
        error = "" ∧ (1 ≤ calls)%nat
        ∧ ∃ d, attempt_succeeds (extract_info env (pred calls)) = Some d
               ∧ title = info_title d
    | Return (false, title, error) =>
        title = ""
        ∧ calls = Z.to_nat max_retries
        ∧ (calls = 0%nat → error = "")
        ∧ (calls ≠ 0%nat → error ≠ "")
    | Raise e =>
        is_Exception e = false ∧ (1 ≤ calls)%nat
        ∧ extract_info env (pred calls) = Raise e
    | Diverge => (1 ≤ calls)%nat ∧ extract_info env (pred calls) = Diverge
    end.
Proof.
  pose proof (retry_loop_general env url output_path proxy format max_retries
                index total (S (Z.to_nat max_retries)) 0 "") as H.
  cbn zeta in *. change (Z.of_nat 0) with 0 in H.
  rewrite Z.sub_0_r in H. cbn [Nat.add] in H.
  destruct H as (H1 & _ & H3 & H4); [lia|]. done.
Qed.

End download_video_general.

Lemma backoff_waits_length (r j : nat) : length (backoff_waits r j) = j.
Proof. unfold backoff_waits. by rewrite length_map, length_seq. Qed.

(** X1: whatever the extractor answers, [download_video] calls it at most
    max_retries times (not at all when max_retries <= 0); its waits are
    2^1, 2^2, ... in this order, fewer than its calls, and they add up to
    at most 2^max_retries - 2 seconds. *)
Theorem download_video_attempts_bounded
    (env : dl_env) (url output_path : string) (proxy : option string)
    (format : string) (max_retries : Z) (index total : option Z) :
  let t := trace_of (Batch.download_video env url output_path proxy format
                       max_retries index total) in
  Z.of_nat (fetch_calls t) ≤ Z.max 0 max_retries
  ∧ waits t = backoff_waits 0 (length (waits t))
  ∧ (length (waits t) ≤ pred (fetch_calls t))%nat
  ∧ total_wait t ≤ 2 ^ Z.max 1 max_retries - 2.
Proof.
  cbn zeta.
  destruct (download_video_cases env url output_path proxy format max_retries
              index total) as [(_ & e & _ & ->)|(_ & t0 & Hc0 & Hw0 & ->)];
    unfold trace_of; cbn [fst].
  - change (fetch_calls [EMakedirs output_path]) with 0%nat.
    change (waits [EMakedirs output_path]) with (@nil Z).
    change (total_wait [EMakedirs output_path]) with 0.
    split; [lia|]. split; [done|]. split; [done|].
    assert (2 ^ 1 ≤ 2 ^ Z.max 1 max_retries) by (apply Z.pow_le_mono_r; lia).
    lia.
  - destruct (download_video_loop_facts env url output_path proxy format
                max_retries index total) as (Hle & (j & Hj & Hjle) & _).
    unfold trace_of in *. unfold total_wait.
    rewrite fetch_calls_app, waits_app, Hc0, Hw0, Hj. cbn [app Nat.add].
    rewrite backoff_waits_length, backoff_total_closed.
    split; [lia|]. split; [done|]. split; [done|].
    assert (2 ^ Z.of_nat (S j) ≤ 2 ^ Z.max 1 max_retries)
      by (apply Z.pow_le_mono_r; lia).
    lia.
Qed.

(** X2: a tuple that [download_video] returns is either
    [(True, title, "")], with the title of the metadata the last call
    answered, or [(False, "", error)] after exactly max_retries calls
    (none when max_retries <= 0), and then [error] is empty exactly when
    max_retries <= 0. *)
Theorem download_video_outcome
    (env : dl_env) (url output_path : string) (proxy : option string)
    (format : string) (max_retries : Z) (index total : option Z)
    (success : bool) (title error : string)
    (Hres : result_of (Batch.download_video env url output_path proxy format
                         max_retries index total)
            = Return (success, title, error)) :
  let calls := fetch_calls (trace_of (Batch.download_video env url output_path
                                        proxy format max_retries index total)) in
  (success = true →
     error = "" ∧ (1 ≤ calls)%nat
     ∧ ∃ d, attempt_succeeds (extract_info env (pred calls)) = Some d
            ∧ title = info_title d)
  ∧ (success = false →
       title = "" ∧ Z.of_nat calls = Z.max 0 max_retries
       ∧ (error = "" ↔ max_retries ≤ 0)).
Proof.
  cbn zeta. revert Hres.
  destruct (download_video_cases env url output_path proxy format max_retries
              index total) as [(_ & e & _ & ->)|(_ & t0 & Hc0 & Hw0 & ->)];
    unfold trace_of, result_of; cbn [fst snd]; [done|].
  destruct (download_video_loop_facts env url output_path proxy format
              max_retries index total) as (Hle & _ & Hend).
  unfold trace_of, result_of in *.
  rewrite fetch_calls_app, Hc0. cbn [Nat.add].
  intros Hres. rewrite Hres in Hend. destruct success.
  - split; [done|]. by intros [=].
  - split; [by intros [=]|]. intros _.
    destruct Hend as (-> & Hcalls & Hz & Hnz). split; [done|]. split; [lia|].
    split.
    + intros ->. destruct (decide (max_retries ≤ 0)) as [|Hgt]; [done|].
      exfalso. apply Hnz; [lia|done].
    + intros Hmax. apply Hz. lia.
Qed.

Lemma download_video_outcome_witness :
  fetch_calls (trace_of (Batch.download_video env_always_fails "u" "out" None
                           "best" 2 None None)) = 2%nat.
Proof.
  destruct (download_video_outcome env_always_fails "u" "out" None "best" 2
              None None false "" "下载错误: unavailable" eq_refl)
    as [_ Hfalse].
  destruct (Hfalse eq_refl) as (_ & Hcalls & _).
  apply Nat2Z.inj. exact Hcalls.
Defined.



(** X4: the retry loop ends whenever the extractor does: if no call of the
    extractor hangs, [download_video] returns or raises. *)
Theorem download_video_terminates
    (env : dl_env) (url output_path : string) (proxy : option string)
    (format : string) (max_retries : Z) (index total : option Z)
    (Hanswers : ∀ n, extract_info env n ≠ Diverge) :
  result_of (Batch.download_video env url output_path proxy format max_retries
               index total) ≠ Diverge.
Proof.
  destruct (download_video_cases env url output_path proxy format max_retries
              index total) as [(_ & e & _ & ->)|(_ & t0 & Hc0 & Hw0 & ->)];
    unfold result_of; cbn [snd]; [done|].
  destruct (download_video_loop_facts env url output_path proxy format
              max_retries index total) as (_ & _ & Hend).
  unfold result_of in Hend. intros Hdiv. rewrite Hdiv in Hend.
  destruct Hend as [_ Hd]. by apply Hanswers in Hd.
Qed.

Lemma download_video_terminates_witness :
  result_of (Batch.download_video env_interrupted "u" "out" None "best" 5 None
               None) ≠ Diverge.
Proof.
  apply (download_video_terminates env_interrupted "u" "out" None "best" 5 None
           None).
  intros [|[|n]]; discriminate.
Defined.

(** ** Events of a computation *)

Lemma Forall_bind {A B} (P : event → Prop) (m : Py A) (f : A → Py B) :
  Forall P m.1 →
  (∀ a, m.2 = Return a → Forall P (f a).1) →
  Forall P (m ≫= f).1.
Proof.
  intros Hm Hf. destruct m as [t [a|e|]]; cbn in *; [|done|done].
  apply Forall_app. split; [done|]. by apply Hf.
Qed.

Lemma Forall_try_except {A} (P : event → Prop) (body : Py A)
    (handler : pyexn → option (Py A)) :
  Forall P body.1 →
  (∀ e h, handler e = Some h → Forall P h.1) →
  Forall P (try_except body handler).1.
Proof.
  intros Hb Hh. unfold try_except.
  destruct body as [t [a|e|]]; cbn in *; [done| |done].
  destruct (handler e) as [h|] eqn:He; cbn; [|done].
  apply Forall_app. split; [done|]. by eapply Hh.
Qed.

Lemma startswith_app (p s : string) : startswith p (p +:+ s) = true.
Proof.
  unfold startswith. induction p as [|c p IH].
  - by destruct s.
  - change (String.prefix (String c p) (String c (p +:+ s)) = true).
    cbn [String.prefix]. by destruct (ascii_dec c c).
Qed.

Section progress.
Variable env : dl_env.
Variables (url output_path : string) (proxy : option string) (format : string).
Variable max_retries : Z.
Variables index total : option Z.

Local Abbreviation ok :=
  (progress_event (Batch.prefix index total) url output_path
     (Batch.make_opts output_path proxy format)).

Lemma attempt_events (retries : Z) :
  Forall ok (Batch.attempt env url output_path proxy format index total
               retries).1.
Proof.
  unfold Batch.attempt, Batch.call_extract_info.
  apply Forall_try_except.
  - apply Forall_bind.
    + repeat constructor. apply startswith_app.
    + intros _ _. apply Forall_bind; [by repeat constructor|].
      intros [d|] _; [case_bool_decide|];
        repeat constructor; apply startswith_app.
  - intros e h He. destruct e; cbn in He; try done;
      injection He as <-; repeat constructor; apply startswith_app.
Qed.

Lemma retry_loop_events (fuel : nat) :
  ∀ (retries : Z) (error_msg : string),
    Forall ok (Batch.retry_loop env url output_path proxy format max_retries
                 index total fuel retries error_msg).1.
Proof.
  induction fuel as [|fuel IH]; intros retries error_msg; [by constructor|].
  rewrite retry_loop_step. destruct (retries <? max_retries).
  - apply Forall_bind; [apply attempt_events|].
    intros [res|msg] _; [by constructor|].
    apply Forall_bind; [|intros _ _; apply IH].
    destruct (retries + 1 <? max_retries); [|by constructor].
    repeat constructor. apply startswith_app.
  - repeat constructor. apply startswith_app.
Qed.

End progress.

(** X5: all that [download_video] does for a task is to create the output
    directory and report it, to print lines that start with the prefix
    [index/total] of the task, to call the extractor, each time for the
    URL of the task with the same options and [download=True], and to
    sleep. *)
Theorem download_video_events
    (env : dl_env) (url output_path : string) (proxy : option string)
    (format : string) (max_retries : Z) (index total : option Z) :
  Forall (progress_event (Batch.prefix index total) url output_path
            (Batch.make_opts output_path proxy format))
    (trace_of (Batch.download_video env url output_path proxy format
                 max_retries index total)).
Proof.
  unfold Batch.download_video, trace_of. apply Forall_bind.
  - unfold Batch.ensure_output_path. destruct (path_exists env);
      [by constructor|].
    apply Forall_bind; [by repeat constructor|]. intros _ _.
    apply Forall_bind; [by destruct (makedirs_error env); constructor|].
    intros _ _. constructor; [by right | constructor].
  - intros _ _. apply retry_loop_events.
Qed.

(** X6: the [download_video] of the single-download script does what the
    one of the batch script does when called without index and total: the
    same events in the same order, and it returns the success flag of the
    tuple the other returns (and raises what the other raises). *)
Theorem single_download_video_agrees
    (env : dl_env) (url output_path : string) (proxy : option string)
    (format : string) (max_retries : Z) :
  let single := Single.download_video env url output_path proxy format
                  max_retries in
  let batch := Batch.download_video env url output_path proxy format
                 max_retries None None in
  trace_of single = trace_of batch
  ∧ result_of single = outcome_map succeeded (result_of batch).
Proof. cbn zeta. by rewrite single_download_video. Qed.



(** ** What [strip] leaves *)

Lemma rstrip_cons (c : ascii) (s : string) :
  rstrip (String c s) =
    match rstrip s with
    | EmptyString => if is_space c then EmptyString else String c EmptyString
    | r => String c r
    end.
Proof. reflexivity. Qed.

Lemma rstrip_rstrip (s : string) : rstrip (rstrip s) = rstrip s.
Proof.
  induction s as [|c s IH]; [done|]. rewrite rstrip_cons.
  destruct (rstrip s) as [|c' r] eqn:Hr.
  - destruct (is_space c) eqn:Hc; [done|]. rewrite rstrip_cons. cbn [rstrip].
    by rewrite Hc.
  - by rewrite rstrip_cons, IH.
Qed.

Lemma lstrip_head (s : string) :
  lstrip s = "" ∨ ∃ c s', lstrip s = String c s' ∧ is_space c = false.
Proof.
  induction s as [|c s IH]; [by left|]. cbn [lstrip].
  destruct (is_space c) eqn:Hc; [done|]. right. by exists c, s.
Qed.

Lemma rstrip_head (c : ascii) (s : string) :
  is_space c = false → ∃ r, rstrip (String c s) = String c r.
Proof.
  intros Hc. rewrite rstrip_cons. destruct (rstrip s) as [|c' r].
  - rewrite Hc. by eexists.
  - by eexists.
Qed.

Lemma strip_strip (s : string) : strip (strip s) = strip s.
Proof.
  unfold strip. destruct (lstrip_head s) as [->|(c & s' & -> & Hc)]; [done|].
  destruct (rstrip_head c s' Hc) as (r & Hr).
  rewrite Hr at 1. cbn [lstrip]. rewrite Hc, <- Hr. apply rstrip_rstrip.
Qed.

Lemma truthy_nonempty (s : string) : truthy s = true → s ≠ "".
Proof. by destruct s. Qed.



(** ** More on the batch *)

Section batch_general.
Variables (pool : Batch.pool_env) (urls : list string) (output_path : string).
Variables (proxy : option string) (format : string).
Variables max_workers max_retries : Z.

Local Abbreviation collect_one :=
  (Batch.collect_one pool urls output_path proxy format max_retries).
Local Abbreviation collect :=
  (Batch.collect pool urls output_path proxy format max_retries).
Local Abbreviation outcome_of :=
  (task_outcome pool urls output_path proxy format max_retries).

(** The loop only prints. *)
Lemma collect_one_prints (future : nat) (results : list Batch.batch_result) :
  Forall is_print (collect_one future results).1.
Proof.
  unfold Batch.collect_one.
  destruct (Batch.future_to_url urls !! future) as [url|]; [|by constructor].
  apply Forall_try_except.
  - apply Forall_bind.
    + unfold Batch.future_result. by destruct (urls !! future); constructor.
    + intros [[success title] error] _. by constructor.
  - intros e h He. unfold except_Exception in He.
    destruct (is_Exception e); [|done]. injection He as <-.
    by repeat constructor.
Qed.

Lemma collect_prints (futures : list nat) :
  ∀ (handled : nat) (results : list Batch.batch_result),
    Forall is_print (collect futures handled results).1.
Proof.
  induction futures as [|future rest IH]; intros handled results;
    cbn [Batch.collect]; [by constructor|].
  case_bool_decide; [by constructor|].
  apply Forall_bind; [apply collect_one_prints|]. intros rs _. apply IH.
Qed.

(** A Ctrl-C that arrives while futures are outstanding ends the loop. *)
Lemma collect_interrupted (futures : list nat) :
  ∀ (handled n : nat) (results : list Batch.batch_result),
    Batch.interrupt_at pool = Some n →
    (handled ≤ n < handled + length futures)%nat →
    (∀ i future, (i < n - handled)%nat → futures !! i = Some future →
                 is_Some (outcome_of future)) →
    (collect futures handled results).2 = Raise KeyboardInterrupt.
Proof.
  induction futures as [|future rest IH]; intros handled n results Hint Hn Hall;
    cbn [Batch.collect]; cbn [length] in Hn; [lia|].
  rewrite Hint. case_bool_decide as Heq.
  - done.
  - assert (handled ≠ n) as Hne by congruence.
    pose proof (collect_one_outcome pool urls output_path proxy format
                  max_retries future results) as Hone.
    destruct (Hall 0%nat future) as (r & Hr); [lia|done|].
    rewrite Hr in Hone. destruct Hone as (t & ->). rewrite bind_Return.
    cbn [snd]. apply (IH (S handled) n); [done|lia|].
    intros i f Hi Hf. apply (Hall (S i)); [lia|done].
Qed.

End batch_general.

(** X9: whether the report can be written does not change what
    [batch_download] returns: with a file system on which writing fails
    with an [Exception] it returns what it returns with any other. *)
Theorem batch_download_report_independent
    (pool : Batch.pool_env) (fs1 fs2 : Batch.file_env) (urls : list string)
    (output_path : string) (proxy : option string) (format : string)
    (max_workers max_retries : Z)
    (H1 : report_settles fs1 output_path)
    (H2 : report_settles fs2 output_path) :
  result_of (Batch.batch_download pool fs1 urls output_path proxy format
               max_workers max_retries)
  = result_of (Batch.batch_download pool fs2 urls output_path proxy format
                 max_workers max_retries).
Proof.
  unfold Batch.batch_download, result_of.
  destruct (max_workers <=? 0);
    cbn [mbind Py_bind mret Py_ret print emit raise fst snd]; [done|].
  destruct (Batch.collect _ _ _ _ _ _ _ 0 []) as [t [rs|e|]];
    cbn [mbind Py_bind mret Py_ret fst snd]; [|done|done].
  destruct (save_results_settles fs1 output_path rs H1) as (t1 & ->).
  by destruct (save_results_settles fs2 output_path rs H2) as (t2 & ->).
Qed.

Lemma batch_download_report_independent_witness :
  result_of (Batch.batch_download pool_mixed fs_read_only ["a"; "b"; "c"] "out"
               None "best" 2 3)
  = result_of (Batch.batch_download pool_mixed fs_empty ["a"; "b"; "c"] "out"
                 None "best" 2 3).
Proof.
  apply (batch_download_report_independent pool_mixed fs_read_only fs_empty).
  - intros e [= <-]. reflexivity.
  - intros e He. discriminate He.
Defined.



Lemma Forall2_omap {A B} (f : A → option B) (l : list A) (k : list B) :
  Forall2 (λ x y, f x = Some y) l k → omap f l = k.
Proof.
  induction 1 as [|x y l k Hxy _ IH]; [done|]. cbn. by rewrite Hxy, IH.
Qed.

(** X11: the order in which the tasks complete changes the order of the
    tuples that [batch_download] returns and nothing else: with another
    order of completion it returns a permutation of the same tuples. *)
Theorem batch_download_order_independent
    (pool : Batch.pool_env) (fs : Batch.file_env) (urls : list string)
    (output_path : string) (proxy : option string) (format : string)
    (max_workers max_retries : Z) (order : list nat)
    (results1 results2 : list Batch.batch_result)
    (Horder : Permutation (Batch.completion_order pool) order)
    (H1 : result_of (Batch.batch_download pool fs urls output_path proxy
                       format max_workers max_retries) = Return results1)
    (H2 : result_of (Batch.batch_download (reordered pool order) fs urls
                       output_path proxy format max_workers max_retries)
          = Return results2) :
  Permutation results1 results2.
Proof.
  destruct (batch_download_returned _ _ _ _ _ _ _ _ _ H1) as (t1 & Hc1).
  destruct (batch_download_returned _ _ _ _ _ _ _ _ _ H2) as (t2 & Hc2).
  destruct (collect_returned _ _ _ _ _ _ _ _ _ _ _ Hc1) as (rs1 & -> & Hall1).
  destruct (collect_returned _ _ _ _ _ _ _ _ _ _ _ Hc2) as (rs2 & -> & Hall2).
  cbn [app]. apply Forall2_omap in Hall1, Hall2.
  rewrite <- Hall1, <- Hall2. cbn [reordered Batch.completion_order].
  by apply omap_Permutation.
Qed.

Lemma batch_download_order_independent_witness :
  Permutation
    [("c", false, "", "下载错误: unavailable"); ("a", true, "T", "");
     ("b", false, "", "Permission denied")]
    [("a", true, "T", ""); ("b", false, "", "Permission denied");
     ("c", false, "", "下载错误: unavailable")].
Proof.
  apply (batch_download_order_independent pool_mixed fs_empty ["a"; "b"; "c"]
           "out" None "best" 2 3 [0; 1; 2]%nat).
  - exact pool_mixed_order.
  - reflexivity.
  - reflexivity.
Defined.

(** ** More on the programs *)

Lemma read_urls_from_file_no_input (fs : Batch.file_env) (file_path : string) :
  Forall no_input (Batch.read_urls_from_file fs file_path).1.
Proof.
  rewrite read_urls_from_file_cases.
  destruct (read_failure fs file_path) as [e|]; [|by repeat constructor].
  destruct (is_Exception e); by repeat constructor.
Qed.

Lemma save_results_no_input (fs : Batch.file_env)
    (results : list Batch.batch_result) (output_path : string) :
  Forall no_input (Batch.save_results fs results output_path).1.
Proof.
  unfold Batch.save_results. apply Forall_try_except.
  - apply Forall_bind; [|by repeat constructor].
    by destruct (Batch.open_write fs _); repeat constructor.
  - intros e h He. unfold except_Exception in He.
    destruct (is_Exception e); [|done]. injection He as <-.
    by repeat constructor.
Qed.

Lemma batch_download_no_input
    (pool : Batch.pool_env) (fs : Batch.file_env) (urls : list string)
    (output_path : string) (proxy : option string) (format : string)
    (max_workers max_retries : Z) :
  Forall no_input (Batch.batch_download pool fs urls output_path proxy format
                     max_workers max_retries).1.
Proof.
  unfold Batch.batch_download.
  apply Forall_bind; [by repeat constructor|]. intros _ _.
  apply Forall_bind; [by destruct (max_workers <=? 0); constructor|].
  intros _ _. apply Forall_bind.
  - eapply Forall_impl; [apply collect_prints|]. by intros [].
  - intros rs _. apply Forall_bind; [by repeat constructor|]. intros _ _.
    apply Forall_bind; [apply save_results_no_input|]. by constructor.
Qed.

Lemma Forall_IO_bind {A B} (P : event → Prop) (m : IO A) (f : A → IO B)
    (inp : list stdin_item) :
  Forall P (m inp).1 →
  (∀ a inp', (m inp).2 = Return (a, inp') → Forall P (f a inp').1) →
  Forall P ((m ≫= f) inp).1.
Proof.
  intros Hm Hf. unfold mbind, IO_bind. apply Forall_bind; [done|].
  intros [a inp'] Ha. by apply Hf.
Qed.

Lemma Forall_lift {A} (P : event → Prop) (m : Py A) (inp : list stdin_item) :
  Forall P m.1 → Forall P (lift m inp).1.
Proof.
  intros Hm. unfold lift. apply Forall_bind; [done|]. by constructor.
Qed.

Lemma main_handlers_no_input (e : pyexn) (h : Py unit) :
  main_handlers e = Some h → Forall no_input h.1.
Proof.
  destruct e; cbn; intros [= <-]; by repeat constructor.
Qed.

(** X12: when the URLs come from [--file] or [--urls] the batch script
    never reads standard input, whatever the file holds and however the
    downloads end. *)
Theorem main_non_interactive
    (pool : Batch.pool_env) (fs : Batch.file_env) (a : Batch.args)
    (inp : list stdin_item)
    (Hgiven : Batch.given_urls a = true) :
  Forall no_input (trace_of (Batch.main pool fs (Parsed a) inp)).
Proof.
  unfold trace_of, Batch.main.
  apply Forall_try_except; [|apply main_handlers_no_input].
  apply Forall_bind; [|by constructor].
  unfold Batch.main_body.
  apply Forall_IO_bind; [by apply Forall_lift; constructor|].
  intros a' inp1 [= <- <-]. apply Forall_IO_bind.
  - unfold Batch.get_urls. unfold Batch.given_urls in Hgiven.
    destruct (truthy_opt (Batch.arg_file a)).
    + apply Forall_IO_bind;
        [apply Forall_lift, read_urls_from_file_no_input|].
      intros urls inp2 _.
      apply Forall_IO_bind; [by apply Forall_lift; repeat constructor|].
      by constructor.
    + destruct (Batch.arg_urls a) as [[|u us]|]; [done| |done].
      apply Forall_IO_bind; [by apply Forall_lift; repeat constructor|].
      by constructor.
  - intros [|u us] inp2 _; [by apply Forall_lift; repeat constructor|].
    rewrite Hgiven, andb_false_r. cbn [negb andb].
    apply Forall_IO_bind; [by constructor|]. intros download_path inp3 _.
    apply Forall_IO_bind; [by constructor|]. intros proxy inp4 _.
    do 6 (apply Forall_IO_bind;
          [by apply Forall_lift; repeat constructor|]; intros _ ? _).
    apply Forall_IO_bind; [by constructor|]. intros confirmed inp5 [= <- <-].
    cbn [negb].
    apply Forall_IO_bind; [|by constructor].
    apply Forall_lift, batch_download_no_input.
Qed.

Lemma main_non_interactive_witness :
  Forall no_input
    (trace_of (Batch.main pool_mixed fs_empty (Parsed args_three_urls)
                 [Line "ignored"])).
Proof.
  exact (main_non_interactive pool_mixed fs_empty args_three_urls
           [Line "ignored"] eq_refl).
Defined.

Lemma IO_bind_Return {A B} (m : IO A) (f : A → IO B)
    (inp inp' : list stdin_item) (t : list event) (a : A) :
  m inp = (t, Return (a, inp')) →
  (m ≫= f) inp = (t ++ (f a inp').1, (f a inp').2).
Proof. unfold mbind at 1, IO_bind. by intros ->. Qed.

(** X13: when the file named by [--file] gives no URL, be it empty, made
    of comments only, or impossible to open, the batch script reports
    that it read 0 URLs and that there is nothing to do, starts no
    download, and ends with the exit status 0. *)
Theorem main_no_urls
    (pool : Batch.pool_env) (fs : Batch.file_env) (a : Batch.args)
    (inp : list stdin_item) (file : string)
    (Hfile : Batch.arg_file a = Some file)
    (Htruthy : truthy file = true)
    (Hread : result_of (Batch.read_urls_from_file fs file) = Return []) :
  Batch.main pool fs (Parsed a) inp =
    (trace_of (Batch.read_urls_from_file fs file)
       ++ [EPrint ("从文件 " +:+ file +:+ " 中读取了 0 个URL");
           EPrint "没有提供任何URL，退出程序"],
     Return tt)
  ∧ exit_status (result_of (Batch.main pool fs (Parsed a) inp)) = Some 0.
Proof.
  assert (Batch.main pool fs (Parsed a) inp =
    (trace_of (Batch.read_urls_from_file fs file)
       ++ [EPrint ("从文件 " +:+ file +:+ " 中读取了 0 个URL");
           EPrint "没有提供任何URL，退出程序"],
     Return tt)) as Hmain.
  { assert (Batch.get_urls fs a inp =
      (trace_of (Batch.read_urls_from_file fs file)
         ++ [EPrint ("从文件 " +:+ file +:+ " 中读取了 0 个URL")],
       Return ([], inp))) as Hget.
    { unfold Batch.get_urls, trace_of. unfold result_of in Hread.
      rewrite Hfile. cbn [truthy_opt default from_option id].
      rewrite Htruthy.
      destruct (Batch.read_urls_from_file fs file) as [t o].
      cbn [snd] in Hread. subst o.
      erewrite IO_bind_Return; [|reflexivity].
      cbn [fst snd]. erewrite IO_bind_Return; [|reflexivity].
      cbn [fst snd mret IO_ret Py_ret length]. by rewrite app_nil_r. }
    unfold Batch.main, Batch.main_body.
    erewrite IO_bind_Return; [|reflexivity].
    erewrite IO_bind_Return; [|exact Hget].
    unfold try_except, lift.
    cbn [mbind Py_bind mret Py_ret print emit fst snd app].
    by rewrite <- !app_assoc, !app_nil_r. }
  split; [exact Hmain|]. by rewrite Hmain.
Qed.

Lemma main_no_urls_witness :
  exit_status (result_of (Batch.main pool_mixed fs_sample
                            (Parsed args_missing_file) [])) = Some 0.
Proof.
  exact (proj2 (main_no_urls pool_mixed fs_sample args_missing_file []
                  "missing.txt" eq_refl eq_refl eq_refl)).
Defined.




(** ** The report and the list of formats *)

Lemma result_row_inj (r1 r2 : Batch.batch_result) :
  Batch.result_row r1 = Batch.result_row r2 → r1 = r2.
Proof.
  destruct r1 as [[[url1 s1] title1] error1], r2 as [[[url2 s2] title2] error2].
  cbn. intros [= -> Hs -> ->]. by destruct s1, s2.
Qed.

Lemma result_rows_inj (rs1 rs2 : list Batch.batch_result) :
  map Batch.result_row rs1 = map Batch.result_row rs2 → rs1 = rs2.
Proof.
  revert rs2. induction rs1 as [|r1 rs1 IH]; intros [|r2 rs2]; cbn;
    try done.
  intros [= Hr Hrs]. f_equal; [by apply result_row_inj | by apply IH].
Qed.



Lemma for_each_print {A} (g : A → string) (l : list A) :
  for_each (λ x, print (g x)) l = ((λ x, EPrint (g x)) <$> l, Return tt).
Proof.
  induction l as [|x l IH]; [done|]. cbn [for_each]. rewrite IH. done.
Qed.


(** ** The format of the single download *)

Lemma IO_bind_result {A B} (m : IO A) (f : A → IO B)
    (inp inp2 : list stdin_item) (b : B) :
  ((m ≫= f) inp).2 = Return (b, inp2) →
  ∃ a inp1, (m inp).2 = Return (a, inp1) ∧ (f a inp1).2 = Return (b, inp2).
Proof.
  unfold mbind at 1, IO_bind.
  destruct (m inp) as [t [[a inp1]|e|]]; cbn; [|done|done].
  intros H. by exists a, inp1.
Qed.

Lemma input_uses_format (fmt prompt : string) (inp : list stdin_item) :
  Forall (uses_format fmt) (input prompt inp).1.
Proof. destruct inp as [|[] inp]; by repeat constructor. Qed.

Lemma single_download_video_format
    (env : dl_env) (url output_path : string) (proxy : option string)
    (format : string) (max_retries : Z) :
  Forall (uses_format format)
    (Single.download_video env url output_path proxy format max_retries).1.
Proof.
  rewrite single_download_video. unfold Py_map. cbn [fst].
  unfold Batch.download_video. apply Forall_bind.
  - unfold Batch.ensure_output_path.
    destruct (path_exists env); [by constructor|].
    destruct (makedirs_error env); by repeat constructor.
  - intros _ _. eapply Forall_impl; [apply retry_loop_events|].
    intros [] Hev; try done. by destruct Hev as (_ & -> & _).
Qed.

Lemma list_formats_uses_format (fmt : string) (answer : Single.formats_answer)
    (url : string) (proxy : option string) :
  Forall (uses_format fmt) (Single.list_formats answer url proxy).1.
Proof.
  unfold Single.list_formats. apply Forall_try_except.
  - apply Forall_bind; [by repeat constructor|].
    intros [[|f formats]|] _; [by repeat constructor| |by repeat constructor].
    do 4 (apply Forall_bind; [by repeat constructor|]; intros _ _).
    apply Forall_bind; [|by intros; repeat constructor].
    rewrite for_each_print. cbn [fst].
    apply Forall_fmap, Forall_true. done.
  - intros e h He. unfold except_Exception in He.
    destruct (is_Exception e); [|done]. injection He as <-.
    by repeat constructor.
Qed.

Lemma main_handlers_uses_format (fmt : string) (e : pyexn) (h : Py unit) :
  main_handlers e = Some h → Forall (uses_format fmt) h.1.
Proof.
  destruct e; cbn; intros [= <-]; by repeat constructor.
Qed.



(** ** The tuples of a batch *)

Lemma download_video_shape
    (env : dl_env) (url output_path : string) (proxy : option string)
    (format : string) (max_retries : Z) (index total : option Z)
    (success : bool) (title error : string) :
  result_of (Batch.download_video env url output_path proxy format max_retries
               index total) = Return (success, title, error) →
  (success = true → error = "") ∧ (success = false → title = "").
Proof.
  destruct (download_video_cases env url output_path proxy format max_retries
              index total) as [(_ & e & _ & ->)|(_ & t0 & _ & _ & ->)];
    unfold result_of; cbn [snd]; [done|].
  destruct (download_video_loop_facts env url output_path proxy format
              max_retries index total) as (_ & _ & Hend).
  unfold result_of in Hend. intros Hres. rewrite Hres in Hend.
  destruct success.
  - split; [|done]. intros _. by destruct Hend as [-> _].
  - split; [done|]. intros _. by destruct Hend as [-> _].
Qed.

(** X19: every tuple that [batch_download] returns is for one of the URLs
    it was given, and it has either the success flag and no error text,
    or no success flag and no title. *)
Theorem batch_download_tuples
    (pool : Batch.pool_env) (fs : Batch.file_env) (urls : list string)
    (output_path : string) (proxy : option string) (format : string)
    (max_workers max_retries : Z) (results : list Batch.batch_result)
    (url : string) (success : bool) (title error : string)
    (Hres : result_of (Batch.batch_download pool fs urls output_path proxy
                         format max_workers max_retries) = Return results)
    (Hin : (url, success, title, error) ∈ results) :
  url ∈ urls
  ∧ (success = true → error = "")
  ∧ (success = false → title = "").
Proof.
  destruct (batch_download_returned _ _ _ _ _ _ _ _ _ Hres) as (t & Hcol).
  destruct (collect_returned _ _ _ _ _ _ _ _ _ _ _ Hcol) as (rs & -> & Hall).
  cbn [app] in Hin. apply list_elem_of_lookup in Hin as (n & Hn).
  destruct (Forall2_lookup_r _ _ _ _ _ Hall Hn) as (future & _ & Hout).
  unfold task_outcome, task_end in Hout.
  destruct (urls !! future) as [u|] eqn:Hu; [|done]. cbn in Hout.
  destruct (result_of (Batch.task_run _ _ _ _ _ _ _ _))
    as [[[s ti] er]|e|] eqn:Hrun; cbn in Hout.
  - simplify_eq. split.
    + apply list_elem_of_lookup. by exists future.
    + by eapply download_video_shape.
  - destruct (is_Exception e); [|done]. simplify_eq.
    split; [|done]. apply list_elem_of_lookup. by exists future.
  - done.
Qed.

Lemma batch_download_tuples_witness :
  "b" ∈ ["a"; "b"; "c"].
Proof.
  refine (proj1 (batch_download_tuples pool_mixed fs_empty ["a"; "b"; "c"]
                   "out" None "best" 2 3
                   [("c", false, "", "下载错误: unavailable");
                    ("a", true, "T", "");
                    ("b", false, "", "Permission denied")]
                   "b" false "" "Permission denied" _ _)).
  - reflexivity.
  - do 2 right. left.
Defined.

(** X20: a task that uses up its retries, max_retries >= 1, has slept
    2^1, ..., 2^(max_retries - 1) seconds, one wait after each failed
    attempt but the last: 2^max_retries - 2 seconds in all. *)
Theorem download_video_exhausted_waits
    (env : dl_env) (url output_path : string) (proxy : option string)
    (format : string) (max_retries : Z) (index total : option Z)
    (Hready : output_path_ready env)
    (Hmax : 1 ≤ max_retries)
    (Hfail : ∀ i, Z.of_nat i < max_retries →
                  attempt_fails (extract_info env i) = true) :
  let t := trace_of (Batch.download_video env url output_path proxy format
                       max_retries index total) in
  waits t = backoff_waits 0 (Z.to_nat max_retries - 1)
  ∧ total_wait t = 2 ^ max_retries - 2.
Proof.
  cbn zeta.
  destruct (ensure_output_path_ready env output_path Hready)
    as (t0 & Hens & Hc0 & Hw0).
  destruct (retry_loop_exhausted env url output_path proxy format max_retries
              index total (Z.to_nat max_retries) 0 ""
              (S (Z.to_nat max_retries)))
    as (t & Hloop & Hcalls & Hwaits).
  - intros i Hi. apply Hfail. lia.
  - lia.
  - right. lia.
  - lia.
  - change (Z.of_nat 0) with 0 in Hloop.
    unfold Batch.download_video. rewrite Hens, Hloop, bind_Return.
    unfold trace_of, total_wait. cbn [fst snd].
    rewrite !waits_app, !waits_cons, Hw0, Hwaits.
    change (waits []) with (@nil Z). rewrite app_nil_r. cbn [app].
    replace (pred (Z.to_nat max_retries)) with (Z.to_nat max_retries - 1)%nat
      by lia.
    split; [done|]. rewrite backoff_total_closed. f_equal. f_equal. lia.
Qed.

Lemma download_video_exhausted_waits_witness :
  total_wait (trace_of (Batch.download_video env_always_fails "u" "out" None
                          "best" 3 None None)) = 6.
Proof.
  refine (proj2 (download_video_exhausted_waits env_always_fails "u" "out" None
                   "best" 3 None None _ _ _)).
  - by left.
  - lia.
  - reflexivity.
Defined.
